(** * Ext.ux.form.field.MeridiemTime: parsing, formatting and validation

    A shallow embedding of the time logic of
    [src/ux/form/field/MeridiemTime.js]: [clearDate], [safeParse],
    [parseDate], [formatDate], [rawToValue], [valueToRaw], [getErrors],
    [setValue], [setMinValue], [setMaxValue], [initComponent] and
    [onSelect].

    The component is written against the Ext JS 4 framework.  The framework
    entry points it calls ([Ext.Date.parse], [Ext.Date.format],
    [Ext.String.format]), the wall clock ([new Date()]) and the time zone of
    the JavaScript engine are gathered in the class [Host]; the component is
    defined over an arbitrary [Host], and a reference [Host] that follows
    the documented behaviour of Ext JS for the time-of-day format codes is
    given in module [ExtJS]. *)

From Stdlib Require Import ZArith List String Ascii Bool Lia DecimalString.
Import ListNotations.

Open Scope string_scope.
Open Scope Z_scope.

(** ** JavaScript dates

    A [Date] is kept as its local-time fields, the way the component reads
    and writes it ([getDate]/[setDate], [getMonth]/[setMonth], ...).  Of
    [getTime] the component only compares two values; their order is the
    order of the local calendar times.  (Where the zone repeats an hour,
    when daylight saving ends, the fields stand for the first of the two
    occurrences, the one the setters and the constructor give.) *)

Record JSDate := mkJSDate {
  getFullYear : Z;
  getMonth : Z;          (* 0 .. 11 *)
  getDate : Z;           (* 1 .. 31 *)
  getHours : Z;
  getMinutes : Z;
  getSeconds : Z;
  getMilliseconds : Z
}.

Definition isLeapYear (y : Z) : bool :=
  (y mod 4 =? 0) && (negb (y mod 100 =? 0) || (y mod 400 =? 0)).

Definition daysInMonth (y m : Z) : Z :=
  if m =? 1 then (if isLeapYear y then 29 else 28)
  else if (m =? 3) || (m =? 5) || (m =? 8) || (m =? 10) then 30
  else 31.

(** ECMAScript [MakeDay] for a month in 0..11 and a day of at least 1 (the
    component only passes values read from another date's getters): days
    past the end of the month carry into the following months. *)
Fixpoint carryDays (fuel : nat) (y m d : Z) : Z * Z * Z :=
  match fuel with
  | O => (y, m, d)
  | S k =>
      if d >? daysInMonth y m then
        if m =? 11 then carryDays k (y + 1) 0 (d - daysInMonth y m)
        else carryDays k y (m + 1) (d - daysInMonth y m)
      else (y, m, d)
  end.

Definition makeDay (y m d : Z) : Z * Z * Z := carryDays (Z.to_nat d) y m d.

(** The date portion of a date: year, month and day. *)
Definition datePortion (t : JSDate) : Z * Z * Z :=
  (getFullYear t, getMonth t, getDate t).

(** The time of day of a date: hour, minute, second and millisecond. *)
Definition clock (t : JSDate) : Z * Z * Z * Z :=
  (getHours t, getMinutes t, getSeconds t, getMilliseconds t).

(** ** The time zone

    A setter of [Date] puts the new local time together from the fields
    and hands it to the engine, which keeps the instant [UTC(t)] and from
    then on shows [LocalTime(UTC(t))].  That is [t] itself when the local
    time [t] exists in the zone.  A local time that the zone skips (the
    hour lost when daylight saving begins, the day lost when a zone moves
    across the date line) is read with the offset in force before the
    change, and shows later by the length of the gap: in New York,
    2:30 on 10 March 2024 shows as 3:30.  [localTime] is that reading. *)

Class TimeZone := {
  localTime : JSDate -> JSDate
}.

Section Setters.

Context {zone : TimeZone}.

Definition withDay (ymd : Z * Z * Z) (t : JSDate) : JSDate :=
  let '(y, m, d) := ymd in
  localTime
    (mkJSDate y m d (getHours t) (getMinutes t) (getSeconds t) (getMilliseconds t)).

Definition setDate (n : Z) (t : JSDate) : JSDate :=
  withDay (makeDay (getFullYear t) (getMonth t) n) t.

Definition setMonth (k : Z) (t : JSDate) : JSDate :=
  withDay (makeDay (getFullYear t) k (getDate t)) t.

Definition setFullYear (y : Z) (t : JSDate) : JSDate :=
  withDay (makeDay y (getMonth t) (getDate t)) t.

(** [setSeconds] is only ever called with 0. *)
Definition setSeconds (s : Z) (t : JSDate) : JSDate :=
  localTime
    (mkJSDate (getFullYear t) (getMonth t) (getDate t)
              (getHours t) (getMinutes t) s (getMilliseconds t)).

(** [new Date(y, m, d, h, i, s, ms)] for in-range time fields. *)
Definition newDate (y m d h i s ms : Z) : JSDate :=
  withDay (makeDay y m d) (mkJSDate y m d h i s ms).

End Setters.

(** ECMAScript [DayFromYear]. *)
Definition dayFromYear (y : Z) : Z :=
  365 * (y - 1970) + (y - 1969) / 4 - (y - 1901) / 100 + (y - 1601) / 400.

Fixpoint daysBeforeMonth (y : Z) (m : nat) : Z :=
  match m with
  | O => 0
  | S k => daysBeforeMonth y k + daysInMonth y (Z.of_nat k)
  end.

Definition msPerDay : Z := 86400000.

Definition getTime (t : JSDate) : Z :=
  (dayFromYear (getFullYear t)
   + daysBeforeMonth (getFullYear t) (Z.to_nat (getMonth t))
   + (getDate t - 1)) * msPerDay
  + getHours t * 3600000 + getMinutes t * 60000
  + getSeconds t * 1000 + getMilliseconds t.

Definition validDay (t : JSDate) : bool :=
  (0 <=? getMonth t) && (getMonth t <=? 11)
  && (1 <=? getDate t) && (getDate t <=? daysInMonth (getFullYear t) (getMonth t)).

Definition validTime (t : JSDate) : bool :=
  (0 <=? getHours t) && (getHours t <? 24)
  && (0 <=? getMinutes t) && (getMinutes t <? 60)
  && (0 <=? getSeconds t) && (getSeconds t <? 60).

(** ** JavaScript values

    The values the component's documented API accepts: a [Date], a string,
    or an absent value ([undefined], [null]). *)

Inductive Value :=
| Undefined
| Null
| Str (s : string)
| DateV (d : JSDate).

Definition truthy (v : Value) : bool :=
  match v with
  | Undefined | Null => false
  | Str s => negb (String.eqb s "")
  | DateV _ => true
  end.

Definition isDate (v : Value) : bool :=
  match v with DateV _ => true | _ => false end.

Definition isString (v : Value) : bool :=
  match v with Str _ => true | _ => false end.

(** [a || b] *)
Definition jsOr (a b : Value) : Value := if truthy a then a else b.

(** A property that holds [undefined] or a string, and what [+] makes of it
    when the other operand is a string. *)
Definition toStr (o : option string) : string :=
  match o with Some s => s | None => "undefined" end.

Definition truthyStr (o : option string) : bool :=
  match o with Some s => negb (String.eqb s "") | None => false end.

(** [s.split('|')] *)
Fixpoint splitBar (s : string) : list string :=
  match s with
  | EmptyString => [""]
  | String c rest =>
      if Ascii.eqb c "|" then "" :: splitBar rest
      else match splitBar rest with
           | [] => [String c ""]
           | w :: ws => String c w :: ws
           end
  end.

(** [s.replace(/(AM|PM)$/i, '')] *)
Definition isMeridiemText (s : string) : bool :=
  match s with
  | String a (String b EmptyString) =>
      (Ascii.eqb a "A" || Ascii.eqb a "a" || Ascii.eqb a "P" || Ascii.eqb a "p")
      && (Ascii.eqb b "M" || Ascii.eqb b "m")
  | _ => false
  end.

Fixpoint stripMeridiem (s : string) : string :=
  match s with
  | EmptyString => EmptyString
  | String c rest => if isMeridiemText s then EmptyString else String c (stripMeridiem rest)
  end.

(** [s.substring(s.length - 2)]; a negative start counts as 0. *)
Definition lastTwo (s : string) : string :=
  String.substring (String.length s - 2) (String.length s) s.

(** The outcome of a call that may raise a [TypeError]. *)
Inductive Completion (A : Type) :=
| Normal (a : A)
| Throw.
Arguments Normal {A} a.
Arguments Throw {A}.

(** ** The field *)

Record Field := mkField {
  format : string;
  captureSeconds : bool;
  captureSecondsFormat : string;
  altFormats : string;
  altFormatsArray : option (list string);
  minText : string;
  maxText : string;
  invalidText : string;
  invalidTextFormat : option string;
  minValue : Value;
  maxValue : Value;
  submitFormat : option string;
  useStrict : option bool;
  maxLength : option Z;
  meridiemValue : option string;
  (** the text of the input element, [getRawValue()] *)
  rawValue : string
}.

(** The class defaults (the prototype of the component). *)
Definition defaults : Field := {|
  format := "h:iA";
  captureSeconds := false;
  captureSecondsFormat := "h:i:sA";
  altFormats := "h:iA|hiA|g:iA|giA|hA|gA";
  altFormatsArray := None;
  minText := "The time in this field must be equal to or after {0}";
  maxText := "The time in this field must be equal to or before {0}";
  invalidText := "{0} is not a valid time - it must be in the format {1}";
  invalidTextFormat := None;
  minValue := Undefined;
  maxValue := Undefined;
  submitFormat := None;
  useStrict := None;
  maxLength := None;
  meridiemValue := None;
  rawValue := ""
|}.

Definition set_meridiemValue (m : option string) (me : Field) : Field :=
  mkField (format me) (captureSeconds me) (captureSecondsFormat me)
    (altFormats me) (altFormatsArray me) (minText me) (maxText me)
    (invalidText me) (invalidTextFormat me) (minValue me) (maxValue me)
    (submitFormat me) (useStrict me) (maxLength me) m (rawValue me).

Definition set_minValue (v : Value) (me : Field) : Field :=
  mkField (format me) (captureSeconds me) (captureSecondsFormat me)
    (altFormats me) (altFormatsArray me) (minText me) (maxText me)
    (invalidText me) (invalidTextFormat me) v (maxValue me)
    (submitFormat me) (useStrict me) (maxLength me) (meridiemValue me)
    (rawValue me).

Definition set_maxValue (v : Value) (me : Field) : Field :=
  mkField (format me) (captureSeconds me) (captureSecondsFormat me)
    (altFormats me) (altFormatsArray me) (minText me) (maxText me)
    (invalidText me) (invalidTextFormat me) (minValue me) v
    (submitFormat me) (useStrict me) (maxLength me) (meridiemValue me)
    (rawValue me).

Definition set_rawValue (r : string) (me : Field) : Field :=
  mkField (format me) (captureSeconds me) (captureSecondsFormat me)
    (altFormats me) (altFormatsArray me) (minText me) (maxText me)
    (invalidText me) (invalidTextFormat me) (minValue me) (maxValue me)
    (submitFormat me) (useStrict me) (maxLength me) (meridiemValue me)
    r.

Definition set_config (fmt : string) (alt : string) (len : option Z)
           (itf : option string) (me : Field) : Field :=
  mkField fmt (captureSeconds me) (captureSecondsFormat me)
    alt (altFormatsArray me) (minText me) (maxText me)
    (invalidText me) itf (minValue me) (maxValue me)
    (submitFormat me) (useStrict me) len (meridiemValue me)
    (rawValue me).

Definition set_captureSeconds (b : bool) (me : Field) : Field :=
  mkField (format me) b (captureSecondsFormat me)
    (altFormats me) (altFormatsArray me) (minText me) (maxText me)
    (invalidText me) (invalidTextFormat me) (minValue me) (maxValue me)
    (submitFormat me) (useStrict me) (maxLength me) (meridiemValue me)
    (rawValue me).

(** An event fired by the field, with its payload. *)
Inductive Event :=
| SelectEvent (newValue : Value).

(** ** The host: framework and clock *)

Class Host := {
  (** the time zone of the engine *)
  timeZone :: TimeZone;
  (** [new Date()]; the clock is read as one instant during a call *)
  today : JSDate;
  (** [Ext.Date.parse(input, format, strict)]; [None] when it returns a
      falsy value.  [strict] is [None] when the argument is [undefined]. *)
  ExtDate_parse : string -> string -> option bool -> option JSDate;
  (** [Ext.Date.format(date, format)], also called [Ext.Date.dateFormat] *)
  ExtDate_format : JSDate -> string -> string;
  (** [Ext.Date.format] on a value that is not a [Date] (the framework
      returns the empty string or raises, depending on its version) *)
  ExtDate_formatOther : Value -> string -> Completion string;
  (** [Ext.String.format(template, args...)] *)
  ExtString_format : string -> list string -> string;
  (** [callParent] in [getErrors]: the errors of [Ext.form.field.Text] *)
  Text_getErrors : Field -> Value -> list string
}.

Section Component.

Context {host : Host}.

(** [clearDate]: the three setters run in the order of the source, each on
    the result of the one before. *)
Definition clearDate (me : Field) (date : Value) : Value :=
  match date with
  | DateV d =>
      let d1 := setDate (getDate today) d in
      let d2 := setMonth (getMonth today) d1 in
      let d3 := setFullYear (getFullYear today) d2 in
      DateV (if negb (captureSeconds me) then setSeconds 0 d3 else d3)
  | _ => date
  end.

Definition safeParse (me : Field) (value : string) (fmt : string) : Value :=
  match ExtDate_parse value fmt (useStrict me) with
  | Some parsedDate => clearDate me (DateV parsedDate)
  | None => Null
  end.

(** The [for] loop of [parseDate]: [i < length && !parsedValue]. *)
Fixpoint parseAlt (me : Field) (input : string) (altFormatsArray : list string)
         (parsedValue : Value) : Value :=
  match altFormatsArray with
  | [] => parsedValue
  | fmt :: rest =>
      if negb (truthy parsedValue)
      then parseAlt me input rest (safeParse me input fmt)
      else parsedValue
  end.

Definition parseDate (me : Field) (value : Value) : Value :=
  if negb (truthy value) || isDate value then value
  else
    match value with
    | Str s =>
        let input := s ++ toStr (meridiemValue me) in
        let parsedValue := safeParse me input (format me) in
        if negb (truthy parsedValue) && negb (String.eqb (altFormats me) "")
        then
          let arr := match altFormatsArray me with
                     | Some a => a
                     | None => splitBar (altFormats me)
                     end in
          parseAlt me input arr parsedValue
        else parsedValue
    | _ => value
    end.

Definition formatDate (me : Field) (date : Value) : Value :=
  match date with
  | DateV d => Str (ExtDate_format d (format me))
  | _ => date
  end.

Definition rawToValue (me : Field) (rawValue : Value) : Value :=
  jsOr (jsOr (parseDate me rawValue) rawValue) Null.

Definition valueToRaw (me : Field) (value : Value) : Value :=
  formatDate me (parseDate me value).

Definition transformOriginalValue (me : Field) (value : Value) : Value :=
  clearDate me value.

(** [Ext.form.field.Text.processRawValue] with no [stripCharsRe]
    configured. *)
Definition processRawValue (me : Field) (raw : string) : string := raw.

(** [Ext.form.field.Base.getValue]: the value is recomputed from the raw
    text on every call. *)
Definition getValue (me : Field) : Value :=
  rawToValue me (Str (processRawValue me (rawValue me))).

Definition setMeridiemValue (value : option string) (me : Field) : Field :=
  set_meridiemValue value me.

(** [Ext.form.field.Base.setRawValue]: [Ext.value(value, '')]. *)
Definition setRawValue (value : Value) (me : Field) : Field :=
  set_rawValue (match value with Str s => s | _ => "" end) me.

Definition setMinValue (me : Field) (value : Value) : Field :=
  set_minValue (if isString value then parseDate me value else value) me.

Definition setMaxValue (me : Field) (value : Value) : Field :=
  set_maxValue (if isString value then parseDate me value else value) me.

Definition initComponent (me : Field) : Field :=
  let minValue := minValue me in
  let maxValue := maxValue me in
  let me := if isString minValue then set_minValue (parseDate me minValue) me else me in
  let me := if isString maxValue then set_maxValue (parseDate me maxValue) me else me in
  let me :=
    if captureSeconds me
    then set_config (captureSecondsFormat me)
           (altFormats me ++ "|h:i:sA|hi:sA|h:isA|gisA|hisA|g:i:sA|gi:sA|g:isA")
           (Some 8) (invalidTextFormat me) me
    else set_config (format me) (altFormats me) (Some 5) (invalidTextFormat me) me in
  (* Ext.applyIf: only a property that is undefined gets the default *)
  match invalidTextFormat me with
  | Some _ => me
  | None =>
      set_config (format me) (altFormats me) (maxLength me)
        (Some (if captureSeconds me then "HH:MM:SS AM/PM" else "HH:MM AM/PM")) me
  end.

(** [setValue].  The call of [mixins.field.setValue] stores the text in the
    [value] property and runs the change detection of the framework; the
    component reads the value back with [getValue] only, which recomputes
    it from the raw text. *)
Definition setValue (me : Field) (value : Value) : Field :=
  let rawValue := valueToRaw me value in
  let time := match rawValue with
              | Str r => Str (stripMeridiem r)
              | _ => Undefined
              end in
  let meridiem := match rawValue with
                  | Str r => Some (lastTwo r)
                  | _ => None
                  end in
  let me := setRawValue time me in
  let me := if truthyStr meridiem then setMeridiemValue meridiem me else me in
  if negb (truthyStr (meridiemValue me))
  then set_meridiemValue (Some (if getHours today >=? 12 then "PM" else "AM")) me
  else me.


(** The bound checks of [getErrors]; [bound.getTime()] raises when the
    bound is a non-empty string. *)
Definition checkBound (bound : Value) (violates : Z -> bool) (text : string)
           (me : Field) (errors : list string) : Completion (list string) :=
  match bound with
  | DateV b =>
      if violates (getTime b)
      (* formatDate of a Date is its text in the configured format *)
      then Normal (errors ++ [ExtString_format text [ExtDate_format b (format me)]])%list
      else Normal errors
  | Str s => if truthy bound then Throw else Normal errors
  | _ => Normal errors
  end.

Definition checkBounds (me : Field) (parsedValue : JSDate) (errors : list string)
  : Completion (list string) :=
  let time := getTime parsedValue in
  match checkBound (minValue me) (fun b => time <? b) (minText me) me errors with
  | Normal errors => checkBound (maxValue me) (fun b => time >? b) (maxText me) me errors
  | Throw => Throw
  end.

Definition invalidError (me : Field) (formattedValue : string) : string :=
  ExtString_format (invalidText me)
    [formattedValue ++ " " ++ toStr (meridiemValue me); toStr (invalidTextFormat me)].

Definition getErrors (me : Field) (value : Value) : Completion (list string) :=
  let errors := Text_getErrors me value in
  let formattedValue :=
    formatDate me (jsOr value (Str (processRawValue me (rawValue me)))) in
  match formattedValue with
  | Undefined => Throw                      (* undefined.length *)
  | Null => Normal errors
  | Str fv =>
      if (Z.of_nat (String.length fv) <? 1) then Normal errors
      else
        match parseDate me formattedValue with
        | DateV parsedValue => checkBounds me parsedValue errors
        | Str p =>
            if truthy (Str p) then Throw    (* a string has no getTime *)
            else Normal (errors ++ [invalidError me fv])%list
        | _ => Normal (errors ++ [invalidError me fv])%list
        end
  | DateV d =>
      (* a Date has no length, and parseDate hands a Date back *)
      match parseDate me formattedValue with
      | DateV parsedValue => checkBounds me parsedValue errors
      | _ => Throw
      end
  end.

(** [onSelect], with [meridiem] the code of the selected record.  The field
    value is read before the new meridiem is stored. *)
Definition onSelect (me : Field) (meridiem : string)
  : Completion (Field * list Event) :=
  let value := getValue me in
  let me := setMeridiemValue (Some meridiem) me in
  if truthy value then
    match (match value with
           | DateV d => Normal (ExtDate_format d "his")
           | _ => ExtDate_formatOther value "his"
           end) with
    | Normal text =>
        let newValue := match ExtDate_parse (text ++ meridiem) "hisA" None with
                        | Some d => DateV d
                        | None => Null
                        end in
        let me := setValue me newValue in
        Normal (me, [SelectEvent newValue])
    | Throw => Throw
    end
  else Normal (me, []).

Definition beforeBlur (me : Field) : Field :=
  let value := parseDate me (Str (rawValue me)) in
  if truthy value then setValue me value else me.

End Component.

(** ** A reference host: Ext JS 4

    [Ext.Date.parse], [Ext.Date.format] and [Ext.String.format] as the
    framework documents them, for formats built from the time-of-day codes
    [h], [g], [H], [G], [i], [s], [A] and [a], escapes and characters that
    are not format codes (every other character is read as a literal).  The
    formats of the component are of this kind.

    The reference host runs in a zone with a fixed offset from UTC, where
    every local time exists and is shown as it was asked for. *)

Module ExtJS.

Definition fixedOffset : TimeZone := {| localTime := fun t => t |}.

Inductive Token :=
| Code_h            (* 12-hour, two digits: (1[0-2]|0[1-9]) *)
| Code_g            (* 12-hour: (1[0-2]|[0-9]) *)
| Code_H            (* 24-hour, two digits: (2[0-3]|[0-1][0-9]) *)
| Code_G            (* 24-hour: (2[0-3]|1[0-9]|[0-9]) *)
| Code_i            (* minutes: ([0-5][0-9]) *)
| Code_s            (* seconds: ([0-5][0-9]) *)
| Code_A            (* (AM|PM|am|pm) *)
| Code_a            (* (am|pm|AM|PM) *)
| Literal (c : ascii).

(** The scan of a format string in [createParser] and [createFormat]: a
    backslash makes the next character a literal. *)
Fixpoint tokens (special : bool) (fmt : string) : list Token :=
  match fmt with
  | EmptyString => []
  | String ch rest =>
      if negb special && Ascii.eqb ch "\" then tokens true rest
      else if special then Literal ch :: tokens false rest
      else
        (if Ascii.eqb ch "h" then Code_h
         else if Ascii.eqb ch "g" then Code_g
         else if Ascii.eqb ch "H" then Code_H
         else if Ascii.eqb ch "G" then Code_G
         else if Ascii.eqb ch "i" then Code_i
         else if Ascii.eqb ch "s" then Code_s
         else if Ascii.eqb ch "A" then Code_A
         else if Ascii.eqb ch "a" then Code_a
         else Literal ch) :: tokens false rest
  end.

Definition inRange (lo hi c : ascii) : bool :=
  (nat_of_ascii lo <=? nat_of_ascii c)%nat && (nat_of_ascii c <=? nat_of_ascii hi)%nat.

Definition isDigit (c : ascii) : bool := inRange "0" "9" c.

(** Case folding of the [i] flag. *)
Definition lower (c : ascii) : ascii :=
  if inRange "A" "Z" c then ascii_of_nat (nat_of_ascii c + 32) else c.

Definition two (s : string) (p : ascii -> ascii -> bool) : list (string * string) :=
  match s with
  | String a (String b rest) =>
      if p a b then [(String a (String b EmptyString), rest)] else []
  | _ => []
  end.

Definition one (s : string) (p : ascii -> bool) : list (string * string) :=
  match s with
  | String a rest => if p a then [(String a EmptyString, rest)] else []
  | _ => []
  end.

(** The ways a code's group can match at the head of the input, in the
    order the regular expression tries them; each with the rest of the
    input. *)
Definition alternatives (t : Token) (s : string) : list (string * string) :=
  match t with
  | Code_h =>
      (two s (fun a b => Ascii.eqb a "1" && inRange "0" "2" b)
       ++ two s (fun a b => Ascii.eqb a "0" && inRange "1" "9" b))%list
  | Code_g =>
      (two s (fun a b => Ascii.eqb a "1" && inRange "0" "2" b)
       ++ one s isDigit)%list
  | Code_H =>
      (two s (fun a b => Ascii.eqb a "2" && inRange "0" "3" b)
       ++ two s (fun a b => inRange "0" "1" a && isDigit b))%list
  | Code_G =>
      (two s (fun a b => Ascii.eqb a "2" && inRange "0" "3" b)
       ++ two s (fun a b => Ascii.eqb a "1" && isDigit b)
       ++ one s isDigit)%list
  | Code_i | Code_s =>
      two s (fun a b => inRange "0" "5" a && isDigit b)
  | Code_A | Code_a =>
      two s (fun a b => (Ascii.eqb (lower a) "a" || Ascii.eqb (lower a) "p")
                        && Ascii.eqb (lower b) "m")
  | Literal c =>
      one s (fun a => Ascii.eqb (lower a) (lower c))
  end.

Fixpoint firstSome {A B : Type} (f : A -> option B) (l : list A) : option B :=
  match l with
  | [] => None
  | a :: rest => match f a with Some b => Some b | None => firstSome f rest end
  end.

(** [String(input).match(/^...$/i)]: the groups of the first match in
    backtracking order, or [None]. *)
Fixpoint matchTokens (toks : list Token) (s : string) : option (list (Token * string)) :=
  match toks with
  | [] => match s with EmptyString => Some [] | _ => None end
  | t :: rest =>
      firstSome (fun '(m, s') =>
                   match matchTokens rest s' with
                   | Some groups => Some ((t, m) :: groups)
                   | None => None
                   end)
                (alternatives t s)
  end.

(** [parseInt(text, 10)] on a group of digits. *)
Fixpoint parseIntFrom (acc : Z) (text : string) : Z :=
  match text with
  | EmptyString => acc
  | String c rest => parseIntFrom (acc * 10 + Z.of_nat (nat_of_ascii c - 48)) rest
  end.

Definition parseInt (text : string) : Z := parseIntFrom 0 text.

(** The variables [h], [i], [s] of the generated parse function;
    [None] is [undefined]. *)
Record Fields := mkFields {
  var_h : option Z;
  var_i : option Z;
  var_s : option Z
}.

(** The code of a group that runs in format order. *)
Definition calc (f : Fields) (g : Token * string) : Fields :=
  match fst g with
  | Code_h | Code_g | Code_H | Code_G =>
      mkFields (Some (parseInt (snd g))) (var_i f) (var_s f)
  | Code_i => mkFields (var_h f) (Some (parseInt (snd g))) (var_s f)
  | Code_s => mkFields (var_h f) (var_i f) (Some (parseInt (snd g)))
  | _ => f
  end.

(** [/(am)/i.test(text)] on a matched meridiem group. *)
Definition isAm (text : string) : bool :=
  match text with
  | String a _ => Ascii.eqb (lower a) "a"
  | _ => false
  end.

(** The code of [A] and [a], which runs after the others ([calcAtEnd]). *)
Definition calcAtEnd (f : Fields) (g : Token * string) : Fields :=
  match fst g with
  | Code_A | Code_a =>
      let h := var_h f in
      let h' :=
        if isAm (snd g) then
          match h with
          | None => Some 0
          | Some v => if (v =? 0) || (v =? 12) then Some 0 else Some v
          end
        else
          match h with
          | None => Some 12
          | Some v => if (v =? 0) || (v <? 12) then Some (v + 12) else Some v
          end in
      mkFields h' (var_i f) (var_s f)
  | _ => f
  end.

Definition readFields (groups : list (Token * string)) : Fields :=
  fold_left calcAtEnd groups (fold_left calc groups (mkFields None None None)).

(** [Ext.Number.from(value, default)] *)
Definition from (v : option Z) (d : Z) : Z :=
  match v with Some x => x | None => d end.

(** [Ext.Date.isValid] *)
Definition isValid (y m d h i s : Z) : bool :=
  validDay (mkJSDate y m d h i s 0) && validTime (mkJSDate y m d h i s 0).

(** The end of the generated parse function: the date fields default to
    the current day (the day clamped to the month), the time fields to
    midnight.  The current year is taken to be past 99. *)
Definition build (now : JSDate) (strict : option bool) (f : Fields) : option JSDate :=
  let y := getFullYear now in
  let m := getMonth now in
  let d := Z.min (getDate now) (daysInMonth y m) in
  let h := from (var_h f) 0 in
  let i := from (var_i f) 0 in
  let s := from (var_s f) 0 in
  if match strict with Some true => negb (isValid y m d h i s) | _ => false end
  then None
  else Some (newDate (zone := fixedOffset) y m d h i s 0).

Definition parse (now : JSDate) (input fmt : string) (strict : option bool)
  : option JSDate :=
  match matchTokens (tokens false fmt) input with
  | Some groups => build now strict (readFields groups)
  | None => None
  end.

(** [String(n)] for an integer. *)
Definition decimal (n : Z) : string := NilZero.string_of_int (Z.to_int n).

(** [Ext.String.leftPad(text, size, character)] *)
Fixpoint leftPadLoop (fuel : nat) (result : string) (size : nat) (character : ascii) : string :=
  match fuel with
  | O => result
  | S k =>
      if (String.length result <? size)%nat
      then leftPadLoop k (String character result) size character
      else result
  end.

Definition leftPad (text : string) (size : nat) (character : ascii) : string :=
  leftPadLoop size text size character.

(** The text a code contributes in [Ext.Date.format]. *)
Definition render (date : JSDate) (t : Token) : string :=
  let h12 := Z.rem (getHours date) 12 in
  match t with
  | Code_h => leftPad (decimal (if h12 =? 0 then 12 else h12)) 2 "0"
  | Code_g => decimal (if h12 =? 0 then 12 else h12)
  | Code_H => leftPad (decimal (getHours date)) 2 "0"
  | Code_G => decimal (getHours date)
  | Code_i => leftPad (decimal (getMinutes date)) 2 "0"
  | Code_s => leftPad (decimal (getSeconds date)) 2 "0"
  | Code_A => if getHours date <? 12 then "AM" else "PM"
  | Code_a => if getHours date <? 12 then "am" else "pm"
  | Literal c => String c EmptyString
  end.

Definition dateFormat (date : JSDate) (fmt : string) : string :=
  String.concat "" (map (render date) (tokens false fmt)).

(** [Ext.String.format]: every [{n}] of the template is replaced by the
    n-th argument ([undefined] when there is none). *)
Fixpoint digitsPrefix (s : string) : string * string :=
  match s with
  | String c rest =>
      if isDigit c
      then let '(ds, tl) := digitsPrefix rest in (String c ds, tl)
      else (EmptyString, s)
  | EmptyString => (EmptyString, EmptyString)
  end.

(** The placeholder at the head of [s] (which follows an opening brace):
    its index and what follows the closing brace. *)
Definition placeholder (s : string) : option (nat * nat) :=
  let '(ds, tl) := digitsPrefix s in
  match ds, tl with
  | String _ _, String c _ =>
      if Ascii.eqb c "}" then Some (Z.to_nat (parseInt ds), S (String.length ds)) else None
  | _, _ => None
  end.

Fixpoint stringFormatFrom (skip : nat) (template : string) (args : list string) : string :=
  match template with
  | EmptyString => EmptyString
  | String c rest =>
      match skip with
      | S k => stringFormatFrom k rest args
      | O =>
          if Ascii.eqb c "{" then
            match placeholder rest with
            | Some (n, len) =>
                (nth n args "undefined" ++ stringFormatFrom len rest args)%string
            | None => String c (stringFormatFrom 0 rest args)
            end
          else String c (stringFormatFrom 0 rest args)
      end
  end.

Definition stringFormat (template : string) (args : list string) : string :=
  stringFormatFrom 0 template args.

(** The host for a clock reading [now] and a parent class that reports
    the errors [textErrors]. *)
Definition host (now : JSDate) (textErrors : Field -> Value -> list string) : Host := {|
  timeZone := fixedOffset;
  today := now;
  ExtDate_parse := parse now;
  ExtDate_format := dateFormat;
  ExtDate_formatOther := fun _ _ => Normal "";
  ExtString_format := stringFormat;
  Text_getErrors := textErrors
|}.

End ExtJS.


(** ** Auxiliary definitions for the proofs about the reference host *)

Module ExtJSAux.
Import ExtJS.

(** The number a matched group stands for is in the range of its code. *)
Definition groupBound (g : Token * string) : bool :=
  let n := parseInt (snd g) in
  match fst g with
  | Code_h | Code_g => (0 <=? n) && (n <=? 12)
  | Code_H | Code_G => (0 <=? n) && (n <=? 23)
  | Code_i | Code_s => (0 <=? n) && (n <=? 59)
  | _ => true
  end.

Definition inBound (v : option Z) (hi : Z) : bool :=
  match v with
  | Some x => (0 <=? x) && (x <=? hi)
  | None => true
  end.

Definition fieldsOK (f : Fields) : bool :=
  inBound (var_h f) 23 && inBound (var_i f) 59 && inBound (var_s f) 59.

(** The fields the framework reads from [input] under [fmt]. *)
Definition scan (fmt input : string) : option Fields :=
  match matchTokens (tokens false fmt) input with
  | Some groups => Some (readFields groups)
  | None => None
  end.

(** The two-digit text of [leftPad(v, 2, '0')], and the 12-hour number of
    an hour as the codes [h] and [g] show it. *)
Definition pad2 (v : Z) : string := leftPad (decimal v) 2 "0".

Definition hour12 (h : Z) : Z :=
  if Z.rem h 12 =? 0 then 12 else Z.rem h 12.

(** The hour of the half-day [meridiem] that shows as the hour [h] does. *)
Definition hourIn (meridiem : string) (h : Z) : Z :=
  h mod 12 + (if String.eqb meridiem "PM" then 12 else 0).

Definition meridiemOf (d : JSDate) : string :=
  if getHours d <? 12 then "AM" else "PM".

(** A format made of 12-hour codes, minutes, seconds and literals that
    ends in a meridiem code, as every format of the component does. *)
Definition isMeridiemCode (t : Token) : bool :=
  match t with
  | Code_A | Code_a => true
  | _ => false
  end.

Definition twelveHourCode (t : Token) : bool :=
  match t with
  | Code_h | Code_g | Code_i | Code_s | Literal _ => true
  | _ => false
  end.

Fixpoint meridiemLast (toks : list Token) : bool :=
  match toks with
  | [] => false
  | t :: rest =>
      match rest with
      | [] => isMeridiemCode t
      | _ :: _ => twelveHourCode t && meridiemLast rest
      end
  end.

Definition meridiemFormat (fmt : string) : bool :=
  meridiemLast (tokens false fmt).

End ExtJSAux.

(** ** The properties, as statements *)

Section Statements.

Context {host : Host}.

(** The formats the loop of [parseDate] runs over when the primary format
    fails: none when [altFormats] is empty, else [altFormatsArray] when it is
    set, else the pieces of [altFormats]. *)
Definition fallbackFormats (me : Field) : list string :=
  if String.eqb (altFormats me) "" then []
  else match altFormatsArray me with
       | Some a => a
       | None => splitBar (altFormats me)
       end.

(** The text handed to the framework for the raw text [s]. *)
Definition parseInput (me : Field) (s : string) : string :=
  s ++ toStr (meridiemValue me).

(** Resetting day, month and year in this order does not run past the end
    of a month on the way. *)
Definition clearFits (d : JSDate) : bool :=
  (getDate today <=? daysInMonth (getFullYear d) (getMonth d))
  && (getDate today <=? daysInMonth (getFullYear d) (getMonth today)).

(** The zone shows every local time on the day it was asked for: a gap of
    the zone moves the time of day and not the day. *)
Definition ZoneKeepsDay : Prop :=
  forall t, datePortion (localTime t) = datePortion t.

(** The zone skips the time [h]:[i] on no day: a local time at that hour
    and minute is shown with the time of day it was asked for. *)
Definition NoGapAt (h i : Z) : Prop :=
  forall t, getHours t = h -> getMinutes t = i -> clock (localTime t) = clock t.

(** [r] is [d] with its date portion cleared: the day of the month, the
    month and the year are set, in this order, to those of the clock, and
    the seconds to 0 unless they are captured.  That is the current date
    when no setter runs past the end of a month and the zone keeps the day;
    and it is then the current date at the time of day of [d], without the
    seconds unless they are captured, when the zone skips that time on no
    day. *)
Definition Cleared (me : Field) (d r : JSDate) : Prop :=
  r = (let reset :=
         setFullYear (getFullYear today)
           (setMonth (getMonth today) (setDate (getDate today) d)) in
       if captureSeconds me then reset else setSeconds 0 reset)
  /\ (validDay today = true -> clearFits d = true -> ZoneKeepsDay ->
      datePortion r = datePortion today)
  /\ (validDay today = true -> clearFits d = true -> ZoneKeepsDay ->
      NoGapAt (getHours d) (getMinutes d) ->
      r = mkJSDate (getFullYear today) (getMonth today) (getDate today)
            (getHours d) (getMinutes d)
            (if captureSeconds me then getSeconds d else 0)
            (getMilliseconds d)).

(** The first format of [fmts] the framework accepts [input] under, and the
    parse it gives. *)
Inductive FirstParse (me : Field) (input : string)
  : list string -> option JSDate -> Prop :=
| FirstParse_none :
    FirstParse me input [] None
| FirstParse_here fmt rest d :
    ExtDate_parse input fmt (useStrict me) = Some d ->
    FirstParse me input (fmt :: rest) (Some d)
| FirstParse_later fmt rest r :
    ExtDate_parse input fmt (useStrict me) = None ->
    FirstParse me input rest r ->
    FirstParse me input (fmt :: rest) r.

(** What [parseDate] returns for the outcome of the search. *)
Definition parsedResult (me : Field) (r : option JSDate) : Value :=
  match r with
  | Some d => clearDate me (DateV d)
  | None => Null
  end.

(** [result] is what trying the primary format and then the fallback
    formats, in order, on the raw text [s] gives: the first successful parse
    with its date portion cleared by [clearDate], or [null] when every
    format fails. *)
Definition SearchOutcome (me : Field) (s : string) (result : Value) : Prop :=
  let input := s ++ toStr (meridiemValue me) in
  let fmts := format me :: fallbackFormats me in
  (exists before fmt after d r,
      fmts = (before ++ fmt :: after)%list
      /\ (forall g, In g before -> ExtDate_parse input g (useStrict me) = None)
      /\ ExtDate_parse input fmt (useStrict me) = Some d
      /\ result = clearDate me (DateV d)
      /\ result = DateV r
      /\ Cleared me d r)
  \/ ((forall g, In g fmts -> ExtDate_parse input g (useStrict me) = None)
      /\ result = Null).

(** The text [getErrors] validates: the formatted candidate value, which is
    the argument or else the raw text of the field. *)
Definition formattedCandidate (me : Field) (value : Value) : Value :=
  formatDate me (jsOr value (Str (processRawValue me (rawValue me)))).

(** A bound as the component keeps it: a [Date], or a falsy value when no
    bound is configured. *)
Definition isBound (v : Value) : bool :=
  match v with
  | Str s => String.eqb s ""
  | _ => true
  end.

(** The time of day of a date, in milliseconds since midnight. *)
Definition timeOfDay (t : JSDate) : Z :=
  getHours t * 3600000 + getMinutes t * 60000
  + getSeconds t * 1000 + getMilliseconds t.

Definition beforeMinimum (me : Field) (m : JSDate) : string :=
  ExtString_format (minText me) [ExtDate_format m (format me)].

Definition afterMaximum (me : Field) (m : JSDate) : string :=
  ExtString_format (maxText me) [ExtDate_format m (format me)].

(** [report] is the "before minimum" error exactly when a minimum is
    configured and the time [p] is strictly before it, and nothing
    otherwise. *)
Definition MinReport (me : Field) (p : JSDate) (report : list string) : Prop :=
  (exists m, minValue me = DateV m /\ getTime p < getTime m
             /\ report = [beforeMinimum me m])
  \/ ((forall m, minValue me = DateV m -> getTime m <= getTime p)
      /\ report = []).

Definition MaxReport (me : Field) (p : JSDate) (report : list string) : Prop :=
  (exists m, maxValue me = DateV m /\ getTime p > getTime m
             /\ report = [afterMaximum me m])
  \/ ((forall m, maxValue me = DateV m -> getTime p <= getTime m)
      /\ report = []).

End Statements.

(** The formats the component gives itself: [h:iA], or [h:i:sA] when it
    captures seconds. *)
Definition ownFormat (me : Field) : Prop :=
  (format me = "h:iA" /\ captureSeconds me = false)
  \/ (format me = "h:i:sA" /\ captureSeconds me = true).

(** The text of a time in the component's own format, without the
    meridiem. *)
Definition displayText (me : Field) (d : JSDate) : string :=
  if captureSeconds me
  then ExtJSAux.pad2 (ExtJSAux.hour12 (getHours d)) ++ ":"
       ++ ExtJSAux.pad2 (getMinutes d) ++ ":" ++ ExtJSAux.pad2 (getSeconds d)
  else ExtJSAux.pad2 (ExtJSAux.hour12 (getHours d)) ++ ":"
       ++ ExtJSAux.pad2 (getMinutes d).

(** Sample data: a field configured from the class defaults, and a clock. *)
Module Sample.

(** Wednesday 31 January 2024, 14:30:15.123 *)
Definition now : JSDate := mkJSDate 2024 0 31 14 30 15 123.

Definition host : Host := ExtJS.host now (fun _ _ => []).

(** The default field with PM showing. *)
Definition field : Field := set_meridiemValue (Some "PM") defaults.

Definition at_ (h i s : Z) : JSDate := mkJSDate 2024 0 31 h i s 0.

(** The sample field with a maximum given as a [Date]: 11:00 PM of the day
    before. *)
Definition lateBound : Field :=
  @setMaxValue host field (DateV (mkJSDate 2024 0 30 23 0 0 0)).

(** New York in March 2024: daylight saving begins on the 10th at 2:00, and
    the clock skips the hour from 2:00 to 3:00 of that day. *)
Definition newYork : TimeZone := {|
  localTime := fun t =>
    if (getFullYear t =? 2024) && (getMonth t =? 2) && (getDate t =? 10)
       && (getHours t =? 2)
    then mkJSDate 2024 2 10 3 (getMinutes t) (getSeconds t) (getMilliseconds t)
    else t
|}.

(** Apia in December 2011: the zone moves across the date line, and the
    calendar skips the 30th. *)
Definition apia : TimeZone := {|
  localTime := fun t =>
    if (getFullYear t =? 2011) && (getMonth t =? 11) && (getDate t =? 30)
    then mkJSDate 2011 11 31 (getHours t) (getMinutes t) (getSeconds t)
           (getMilliseconds t)
    else t
|}.

(** The reference framework with its clock reading [time], in the zone
    [zone]: the framework builds what it parsed with
    [new Date(y, m, d, h, i, s, ms)], which shows as the zone reads it. *)
Definition hostIn (zone : TimeZone) (time : JSDate) : Host := {|
  timeZone := zone;
  today := time;
  ExtDate_parse := fun input fmt strict =>
    option_map (@localTime zone) (ExtJS.parse time input fmt strict);
  ExtDate_format := ExtJS.dateFormat;
  ExtDate_formatOther := fun _ _ => Normal "";
  ExtString_format := ExtJS.stringFormat;
  Text_getErrors := fun _ _ => []
|}.

End Sample.

(** ** More of the component *)

Section MoreComponent.

Context {host : Host}.

(** The record [onExpand] selects and highlights in the picker: the store
    holds AM at index 0 and PM at index 1. *)
Definition pickerRecord (me : Field) : nat :=
  match getValue me with
  | DateV d => if String.eqb (ExtDate_format d "A") "AM" then 0%nat else 1%nat
  | _ =>
      match meridiemValue me with
      | Some m => if String.eqb m "AM" then 0%nat else 1%nat
      | None => 1%nat
      end
  end.

(** The fields a program can hold: built by [initComponent] from any
    configuration, and then driven through the operations of the component
    and the typing of the user. *)
Inductive Reachable : Field -> Prop :=
| Reachable_init me :
    Reachable (initComponent me)
| Reachable_typed me raw :
    Reachable me -> Reachable (set_rawValue raw me)
| Reachable_setValue me v :
    Reachable me -> Reachable (setValue me v)
| Reachable_setMeridiemValue me m :
    Reachable me -> Reachable (setMeridiemValue m me)
| Reachable_setMinValue me v :
    Reachable me -> Reachable (setMinValue me v)
| Reachable_setMaxValue me v :
    Reachable me -> Reachable (setMaxValue me v)
| Reachable_onSelect me meridiem me' events :
    Reachable me -> onSelect me meridiem = Normal (me', events) -> Reachable me'
| Reachable_beforeBlur me :
    Reachable me -> Reachable (beforeBlur me).


(** The formats [initComponent] appends when seconds are captured. *)
Definition secondsFormats : list string :=
  ["h:i:sA"; "hi:sA"; "h:isA"; "gisA"; "hisA"; "g:i:sA"; "gi:sA"; "g:isA"].

End MoreComponent.

(** Formats whose literals are not letters: 12-hour codes, minutes,
    seconds and punctuation, with a meridiem code at the end.  The formats
    of the component are of this kind. *)
Module ExtJSPlain.

Import ExtJS ExtJSAux.

Definition isLetter (c : ascii) : bool :=
  inRange "A" "Z" c || inRange "a" "z" c.

Fixpoint noLetters (s : string) : bool :=
  match s with
  | EmptyString => true
  | String c rest => negb (isLetter c) && noLetters rest
  end.

Definition plainCode (t : Token) : bool :=
  match t with
  | Code_h | Code_g | Code_i | Code_s => true
  | Literal c => negb (isLetter c)
  | _ => false
  end.

Fixpoint plainMeridiemLast (toks : list Token) : bool :=
  match toks with
  | [] => false
  | t :: rest =>
      match rest with
      | [] => isMeridiemCode t
      | _ :: _ => plainCode t && plainMeridiemLast rest
      end
  end.

Definition plainFormat (fmt : string) : bool :=
  plainMeridiemLast (tokens false fmt).

End ExtJSPlain.

(** More sample data: a date of another day, with seconds and
    milliseconds, and a field built, given no value, typed into and given a
    minimum. *)
Module MoreSample.

Definition june : JSDate := mkJSDate 2020 5 15 15 45 30 500.

Definition driven : Field :=
  @setMinValue Sample.host
    (set_rawValue "3:45"
       (@setValue Sample.host (@initComponent Sample.host defaults) Undefined))
    (DateV june).

End MoreSample.
(** * Properties *)

Section Parsing.

Context {host : Host}.

Lemma truthy_Str (s : string) : truthy (Str s) = true <-> s <> "".
Proof.
  simpl. destruct (String.eqb_spec s ""); simpl; split; intros; congruence.
Qed.

Lemma safeParse_some (me : Field) (input fmt : string) (d : JSDate) :
  ExtDate_parse input fmt (useStrict me) = Some d ->
  safeParse me input fmt = clearDate me (DateV d)
  /\ truthy (safeParse me input fmt) = true.
Proof.
  intros H. unfold safeParse. rewrite H. split; reflexivity.
Qed.

Lemma safeParse_none (me : Field) (input fmt : string) :
  ExtDate_parse input fmt (useStrict me) = None ->
  safeParse me input fmt = Null.
Proof. intros H. unfold safeParse. now rewrite H. Qed.

Lemma FirstParse_total (me : Field) (input : string) (fmts : list string) :
  exists r, FirstParse me input fmts r.
Proof.
  induction fmts as [|fmt rest [r IH]].
  - exists None. constructor.
  - destruct (ExtDate_parse input fmt (useStrict me)) as [d|] eqn:E.
    + exists (Some d). now constructor.
    + exists r. now constructor.
Qed.

Lemma FirstParse_functional (me : Field) (input : string) (fmts : list string) r1 r2 :
  FirstParse me input fmts r1 -> FirstParse me input fmts r2 -> r1 = r2.
Proof.
  intros H1. revert r2.
  induction H1; intros r2 H2; inversion H2; subst; try congruence; auto.
Qed.

Lemma FirstParse_none_iff (me : Field) (input : string) (fmts : list string) :
  FirstParse me input fmts None <->
  (forall fmt, In fmt fmts -> ExtDate_parse input fmt (useStrict me) = None).
Proof.
  split.
  - intros H. remember None as r eqn:Er.
    induction H as [|fmt rest d Hd|fmt rest r Hn Hrest IH]; intros g Hin.
    + destruct Hin.
    + discriminate.
    + destruct Hin as [<-|Hin]; [congruence | exact (IH Er g Hin)].
  - induction fmts as [|fmt rest IH]; intros H.
    + constructor.
    + constructor; [apply H; now left|]. apply IH. intros g Hg. apply H. now right.
Qed.

Lemma FirstParse_some_split (me : Field) (input : string) (fmts : list string) d :
  FirstParse me input fmts (Some d) ->
  exists before fmt after,
    fmts = (before ++ fmt :: after)%list
    /\ (forall g, In g before -> ExtDate_parse input g (useStrict me) = None)
    /\ ExtDate_parse input fmt (useStrict me) = Some d.
Proof.
  intros H. remember (Some d) as r eqn:Er. induction H.
  - discriminate.
  - injection Er as ->. exists [], fmt, rest. repeat split; auto. intros g [].
  - destruct (IHFirstParse Er) as (before & f & after & -> & Hb & Hf).
    exists (fmt :: before), f, after. repeat split; auto.
    intros g [<-|Hg]; auto.
Qed.

(** The loop, entered with a failed parse, finds the first success. *)
Lemma parseAlt_first (me : Field) (input : string) (fmts : list string) r :
  FirstParse me input fmts r ->
  parseAlt me input fmts Null = parsedResult me r.
Proof.
  induction 1 as [|fmt rest d Hd|fmt rest r Hn _ IH]; simpl.
  - reflexivity.
  - destruct (safeParse_some me input fmt d Hd) as [-> _].
    destruct rest; simpl; reflexivity.
  - rewrite (safeParse_none me input fmt Hn). exact IH.
Qed.

Lemma parseDate_first (me : Field) (s : string) r :
  s <> "" ->
  FirstParse me (parseInput me s) (format me :: fallbackFormats me) r ->
  parseDate me (Str s) = parsedResult me r.
Proof.
  intros Hs H. unfold parseDate.
  apply truthy_Str in Hs. rewrite Hs. simpl negb. simpl orb. cbv iota.
  fold (parseInput me s).
  inversion H as [|fmt rest d Hd|fmt rest r' Hn Hrest]; subst.
  - destruct (safeParse_some me _ _ d Hd) as [-> Ht]. simpl in Ht |- *.
    reflexivity.
  - rewrite (safeParse_none me _ _ Hn). simpl.
    unfold fallbackFormats in Hrest.
    destruct (String.eqb (altFormats me) ""); simpl.
    + inversion Hrest; subst. reflexivity.
    + now apply parseAlt_first.
Qed.

Lemma parseDate_falsy (me : Field) (v : Value) :
  truthy v = false -> parseDate me v = v.
Proof. intros H. unfold parseDate. now rewrite H. Qed.

Lemma parseDate_date (me : Field) (d : JSDate) :
  parseDate me (DateV d) = DateV d.
Proof. reflexivity. Qed.

(** A non-empty string parses to a [Date] or to [null]. *)
Lemma parseDate_Str_cases (me : Field) (s : string) :
  s <> "" ->
  (exists d, parseDate me (Str s) = DateV d) \/ parseDate me (Str s) = Null.
Proof.
  intros Hs.
  destruct (FirstParse_total me (parseInput me s) (format me :: fallbackFormats me))
    as [r Hr].
  rewrite (parseDate_first me s r Hs Hr).
  destruct r as [d|]; simpl; eauto.
Qed.

End Parsing.
Module ExtJSFacts.
Import ExtJS ExtJSAux.

Lemma inRange_spec (lo hi c : ascii) :
  inRange lo hi c = true <->
  (nat_of_ascii lo <= nat_of_ascii c <= nat_of_ascii hi)%nat.
Proof.
  unfold inRange. rewrite andb_true_iff, !Nat.leb_le. tauto.
Qed.

Lemma two_In (s : string) (p : ascii -> ascii -> bool) (m rest : string) :
  In (m, rest) (two s p) ->
  exists a b, m = String a (String b EmptyString)
              /\ s = String a (String b rest) /\ p a b = true.
Proof.
  destruct s as [|a [|b tl]]; simpl; try tauto.
  destruct (p a b) eqn:E; simpl; [|tauto].
  intros [H|[]]. injection H as <- <-. eauto.
Qed.

Lemma one_In (s : string) (p : ascii -> bool) (m rest : string) :
  In (m, rest) (one s p) ->
  exists a, m = String a EmptyString /\ s = String a rest /\ p a = true.
Proof.
  destruct s as [|a tl]; simpl; try tauto.
  destruct (p a) eqn:E; simpl; [|tauto].
  intros [H|[]]. injection H as <- <-. eauto.
Qed.

Lemma parseInt_two (a b : ascii) :
  parseInt (String a (String b EmptyString))
  = Z.of_nat (nat_of_ascii a - 48) * 10 + Z.of_nat (nat_of_ascii b - 48).
Proof. unfold parseInt. simpl. lia. Qed.

Lemma parseInt_one (a : ascii) :
  parseInt (String a EmptyString) = Z.of_nat (nat_of_ascii a - 48).
Proof. unfold parseInt. simpl. lia. Qed.

Lemma code_0 : nat_of_ascii "0" = 48%nat. Proof. reflexivity. Qed.
Lemma code_1 : nat_of_ascii "1" = 49%nat. Proof. reflexivity. Qed.
Lemma code_2 : nat_of_ascii "2" = 50%nat. Proof. reflexivity. Qed.
Lemma code_3 : nat_of_ascii "3" = 51%nat. Proof. reflexivity. Qed.
Lemma code_5 : nat_of_ascii "5" = 53%nat. Proof. reflexivity. Qed.
Lemma code_9 : nat_of_ascii "9" = 57%nat. Proof. reflexivity. Qed.

Ltac codes :=
  rewrite ?code_0, ?code_1, ?code_2, ?code_3, ?code_5, ?code_9 in *.

Ltac chars :=
  repeat match goal with
  | H : _ && _ = true |- _ => apply andb_true_iff in H; destruct H
  | H : Ascii.eqb _ _ = true |- _ => apply Ascii.eqb_eq in H; subst
  | H : isDigit _ = true |- _ => unfold isDigit in H
  | H : inRange _ _ _ = true |- _ => apply inRange_spec in H
  end.

Lemma alternatives_bound (t : Token) (s m rest : string) :
  In (m, rest) (alternatives t s) -> groupBound (t, m) = true.
Proof.
  unfold groupBound; destruct t; simpl fst; simpl snd; cbv iota; simpl alternatives;
    rewrite ?in_app_iff; intros H; try reflexivity;
    repeat match goal with
    | H : _ \/ _ |- _ => destruct H
    | H : In _ (two _ _) |- _ =>
        apply two_In in H; destruct H as (a & b & -> & _ & H)
    | H : In _ (one _ _) |- _ =>
        apply one_In in H; destruct H as (a & -> & _ & H)
    end;
    rewrite ?parseInt_two, ?parseInt_one; chars;
    codes; apply andb_true_iff; split; apply Z.leb_le; lia.
Qed.

Lemma firstSome_In {A B : Type} (f : A -> option B) (l : list A) (b : B) :
  firstSome f l = Some b -> exists a, In a l /\ f a = Some b.
Proof.
  induction l as [|a rest IH]; simpl; [discriminate|].
  destruct (f a) as [b'|] eqn:E.
  - intros H. injection H as <-. exists a. auto.
  - intros H. destruct (IH H) as (a' & Hin & Ha'). exists a'. auto.
Qed.

Lemma matchTokens_bound (toks : list Token) :
  forall (s : string) (groups : list (Token * string)),
    matchTokens toks s = Some groups ->
    forallb groupBound groups = true.
Proof.
  induction toks as [|t rest IH]; intros s groups; simpl.
  - destruct s; [|discriminate]. intros H. injection H as <-. reflexivity.
  - intros H. apply firstSome_In in H. destruct H as ([m s'] & Hin & H).
    destruct (matchTokens rest s') as [gs|] eqn:E; [|discriminate].
    injection H as <-. simpl.
    rewrite (alternatives_bound t s m s' Hin). simpl. exact (IH s' gs E).
Qed.

Lemma inBound_Some (x hi : Z) :
  inBound (Some x) hi = true <-> 0 <= x <= hi.
Proof. simpl. rewrite andb_true_iff, !Z.leb_le. tauto. Qed.

Lemma fieldsOK_spec (f : Fields) :
  fieldsOK f = true <->
  inBound (var_h f) 23 = true /\ inBound (var_i f) 59 = true
  /\ inBound (var_s f) 59 = true.
Proof. unfold fieldsOK. rewrite !andb_true_iff. tauto. Qed.

Lemma calc_ok (f : Fields) (g : Token * string) :
  groupBound g = true -> fieldsOK f = true -> fieldsOK (calc f g) = true.
Proof.
  rewrite !fieldsOK_spec. intros Hg (Hh & Hi & Hs).
  destruct g as [t m]. unfold groupBound in Hg. unfold calc.
  simpl fst in *. simpl snd in *.
  destruct t; simpl; auto; repeat split; auto;
    apply andb_true_iff in Hg; destruct Hg as [H1 H2];
    apply Z.leb_le in H1, H2; apply inBound_Some; lia.
Qed.

Lemma calcAtEnd_ok (f : Fields) (g : Token * string) :
  fieldsOK f = true -> fieldsOK (calcAtEnd f g) = true.
Proof.
  rewrite !fieldsOK_spec. intros (Hh & Hi & Hs).
  destruct g as [t m]. unfold calcAtEnd. simpl fst. simpl snd.
  destruct t; simpl; auto; repeat split; auto;
    destruct (isAm m); destruct (var_h f) as [v|]; try reflexivity;
    apply inBound_Some in Hh;
    repeat match goal with
    | |- context [if ?c then _ else _] => destruct c eqn:?
    end;
    apply inBound_Some;
    rewrite ?orb_true_iff, ?orb_false_iff, ?Z.eqb_eq, ?Z.eqb_neq,
      ?Z.ltb_lt, ?Z.ltb_ge in *; lia.
Qed.

Lemma fold_calc_ok (groups : list (Token * string)) :
  forall f, forallb groupBound groups = true -> fieldsOK f = true ->
            fieldsOK (fold_left calc groups f) = true.
Proof.
  induction groups as [|g rest IH]; intros f Hg Hf; simpl; [exact Hf|].
  simpl in Hg. apply andb_true_iff in Hg. destruct Hg as [Hg Hrest].
  apply IH; [exact Hrest|]. now apply calc_ok.
Qed.

Lemma fold_calcAtEnd_ok (groups : list (Token * string)) :
  forall f, fieldsOK f = true -> fieldsOK (fold_left calcAtEnd groups f) = true.
Proof.
  induction groups as [|g rest IH]; intros f Hf; simpl; [exact Hf|].
  apply IH. now apply calcAtEnd_ok.
Qed.

Lemma scan_ok (fmt input : string) (f : Fields) :
  scan fmt input = Some f -> fieldsOK f = true.
Proof.
  unfold scan. destruct (matchTokens (tokens false fmt) input) as [groups|] eqn:E;
    [|discriminate].
  intros H. injection H as <-. unfold readFields.
  apply fold_calcAtEnd_ok, fold_calc_ok; [|reflexivity].
  exact (matchTokens_bound _ _ _ E).
Qed.

Lemma parse_scan (now : JSDate) (input fmt : string) (strict : option bool) :
  parse now input fmt strict
  = match scan fmt input with
    | Some f => build now strict f
    | None => None
    end.
Proof.
  unfold parse, scan. now destruct (matchTokens (tokens false fmt) input).
Qed.

(** No day is carried when the day fits its month. *)
Lemma makeDay_fits (y m d : Z) :
  d <= daysInMonth y m -> makeDay y m d = (y, m, d).
Proof.
  intros H. unfold makeDay. destruct (Z.to_nat d); simpl; [reflexivity|].
  destruct (d >? daysInMonth y m) eqn:E; [|reflexivity].
  apply Z.gtb_lt in E. lia.
Qed.

Lemma validDay_spec (t : JSDate) :
  validDay t = true <->
  0 <= getMonth t <= 11 /\ 1 <= getDate t <= daysInMonth (getFullYear t) (getMonth t).
Proof.
  unfold validDay. rewrite !andb_true_iff, !Z.leb_le. tauto.
Qed.

Lemma validTime_spec (t : JSDate) :
  validTime t = true <->
  0 <= getHours t < 24 /\ 0 <= getMinutes t < 60 /\ 0 <= getSeconds t < 60.
Proof.
  unfold validTime. rewrite !andb_true_iff, !Z.leb_le, !Z.ltb_lt. tauto.
Qed.

Lemma build_shape (now : JSDate) (strict : option bool) (f : Fields) :
  validDay now = true -> fieldsOK f = true ->
  build now strict f
  = Some (mkJSDate (getFullYear now) (getMonth now) (getDate now)
            (from (var_h f) 0) (from (var_i f) 0) (from (var_s f) 0) 0)
  /\ 0 <= from (var_h f) 0 < 24
  /\ 0 <= from (var_i f) 0 < 60
  /\ 0 <= from (var_s f) 0 < 60.
Proof.
  intros Hnow Hf. pose proof Hnow as Hv. apply validDay_spec in Hv.
  apply fieldsOK_spec in Hf. destruct Hf as (Hh & Hi & Hs).
  assert (Bh : 0 <= from (var_h f) 0 < 24).
  { destruct (var_h f); simpl; [apply inBound_Some in Hh|]; lia. }
  assert (Bi : 0 <= from (var_i f) 0 < 60).
  { destruct (var_i f); simpl; [apply inBound_Some in Hi|]; lia. }
  assert (Bs : 0 <= from (var_s f) 0 < 60).
  { destruct (var_s f); simpl; [apply inBound_Some in Hs|]; lia. }
  split; [|auto].
  unfold build.
  rewrite (Z.min_l (getDate now)) by lia.
  assert (Hval : isValid (getFullYear now) (getMonth now) (getDate now)
                   (from (var_h f) 0) (from (var_i f) 0) (from (var_s f) 0) = true).
  { unfold isValid. apply andb_true_iff. split.
    - destruct now; exact Hnow.
    - apply validTime_spec. simpl. lia. }
  rewrite Hval.
  replace (match strict with Some true => negb true | _ => false end) with false
    by (destruct strict as [[]|]; reflexivity).
  unfold newDate. rewrite makeDay_fits by lia. reflexivity.
Qed.

(** What the framework returns is a time of the current day. *)
Lemma parse_shape (now : JSDate) (input fmt : string) (strict : option bool) (d : JSDate) :
  validDay now = true ->
  parse now input fmt strict = Some d ->
  datePortion d = datePortion now /\ getMilliseconds d = 0 /\ validTime d = true.
Proof.
  intros Hnow. rewrite parse_scan.
  destruct (scan fmt input) as [f|] eqn:E; [|discriminate].
  destruct (build_shape now strict f Hnow (scan_ok _ _ _ E)) as (-> & Bh & Bi & Bs).
  intros H. injection H as <-. repeat split.
  apply validTime_spec. simpl. lia.
Qed.

Lemma pad2_sixty (n : nat) (rest : string) :
  (n < 60)%nat ->
  two (pad2 (Z.of_nat n) ++ rest) (fun a b => inRange "0" "5" a && isDigit b)
  = [(pad2 (Z.of_nat n), rest)]
  /\ parseInt (pad2 (Z.of_nat n)) = Z.of_nat n.
Proof.
  intros Hn.
  do 60 (destruct n as [|n]; [split; reflexivity|]). lia.
Qed.

Lemma pad2_hour12 (n : nat) (rest : string) :
  (n < 24)%nat ->
  alternatives Code_h (pad2 (hour12 (Z.of_nat n)) ++ rest)
  = [(pad2 (hour12 (Z.of_nat n)), rest)]
  /\ parseInt (pad2 (hour12 (Z.of_nat n))) = hour12 (Z.of_nat n)
  /\ 1 <= hour12 (Z.of_nat n) <= 12
  /\ hour12 (Z.of_nat n) mod 12 = Z.of_nat n mod 12.
Proof.
  intros Hn.
  do 24 (destruct n as [|n]; [repeat split; (reflexivity || discriminate)|]). lia.
Qed.

Lemma append_assoc (a b c : string) : (a ++ b) ++ c = a ++ (b ++ c).
Proof. induction a as [|x a IH]; simpl; [reflexivity|]. now rewrite IH. Qed.

Lemma matchTokens_step (t : Token) (rest : list Token) (s m s' : string) :
  alternatives t s = [(m, s')] ->
  matchTokens (t :: rest) s
  = match matchTokens rest s' with
    | Some groups => Some ((t, m) :: groups)
    | None => None
    end.
Proof.
  intros H. simpl. rewrite H. simpl. now destruct (matchTokens rest s').
Qed.

Lemma alternatives_hour (h : Z) (rest : string) :
  0 <= h < 24 ->
  alternatives Code_h (pad2 (hour12 h) ++ rest) = [(pad2 (hour12 h), rest)]
  /\ parseInt (pad2 (hour12 h)) = hour12 h
  /\ 1 <= hour12 h <= 12
  /\ hour12 h mod 12 = h mod 12.
Proof.
  intros Hh. rewrite <- (Z2Nat.id h) by lia. apply pad2_hour12. lia.
Qed.

Lemma alternatives_minute (v : Z) (rest : string) :
  0 <= v < 60 ->
  alternatives Code_i (pad2 v ++ rest) = [(pad2 v, rest)]
  /\ alternatives Code_s (pad2 v ++ rest) = [(pad2 v, rest)]
  /\ parseInt (pad2 v) = v.
Proof.
  intros Hv. rewrite <- (Z2Nat.id v) by lia.
  destruct (pad2_sixty (Z.to_nat v) rest ltac:(lia)) as [H1 H2].
  repeat split; assumption.
Qed.

Lemma alternatives_colon (rest : string) :
  alternatives (Literal ":") (":" ++ rest) = [(":", rest)].
Proof. reflexivity. Qed.

(** The meridiem code turns the 12-hour number into the hour of the day. *)
Lemma meridiem_hour (v : Z) (i s : option Z) (meridiem : string) :
  1 <= v <= 12 -> meridiem = "AM" \/ meridiem = "PM" ->
  calcAtEnd (mkFields (Some v) i s) (Code_A, meridiem)
  = mkFields (Some (hourIn meridiem v)) i s.
Proof.
  intros Hv Hm. unfold calcAtEnd, hourIn. cbn [fst snd var_h var_i var_s].
  assert (Hmod : v = 12 \/ (v < 12 /\ v mod 12 = v)).
  { destruct (Z.eq_dec v 12); [now left|right]. split; [lia|].
    apply Z.mod_small. lia. }
  destruct Hm as [-> | ->].
  - change (isAm "AM") with true. change (String.eqb "AM" "PM") with false.
    cbv iota. f_equal. destruct Hmod as [-> | [Hlt Hv']].
    + reflexivity.
    + rewrite Hv'.
      replace (v =? 0) with false by (symmetry; apply Z.eqb_neq; lia).
      replace (v =? 12) with false by (symmetry; apply Z.eqb_neq; lia).
      simpl orb. cbv iota. f_equal. lia.
  - change (isAm "PM") with false. change (String.eqb "PM" "PM") with true.
    cbv iota. f_equal. destruct Hmod as [-> | [Hlt Hv']].
    + reflexivity.
    + rewrite Hv'.
      replace (v <? 12) with true by (symmetry; apply Z.ltb_lt; lia).
      rewrite orb_true_r. reflexivity.
Qed.

Lemma hourIn_hour12 (h : Z) (meridiem : string) :
  0 <= h < 24 -> hourIn meridiem (hour12 h) = hourIn meridiem h.
Proof.
  intros Hh. unfold hourIn. f_equal.
  now destruct (alternatives_hour h "" Hh) as (_ & _ & _ & ->).
Qed.

Lemma hourIn_own (h : Z) :
  0 <= h < 24 -> hourIn (if h <? 12 then "AM" else "PM") h = h.
Proof.
  intros Hh. unfold hourIn. destruct (h <? 12) eqn:E; simpl.
  - apply Z.ltb_lt in E. rewrite Z.mod_small; lia.
  - apply Z.ltb_ge in E.
    replace h with (h - 12 + 1 * 12) at 1 by lia.
    rewrite Z.mod_add by lia. rewrite Z.mod_small; lia.
Qed.

Lemma matchTokens_meridiem (meridiem : string) :
  meridiem = "AM" \/ meridiem = "PM" ->
  matchTokens [Code_A] meridiem = Some [(Code_A, meridiem)].
Proof. intros [-> | ->]; reflexivity. Qed.

(** Reading back [his] text followed by a meridiem, under [hisA]. *)
Lemma scan_his (d : JSDate) (meridiem : string) :
  validTime d = true -> meridiem = "AM" \/ meridiem = "PM" ->
  scan "hisA" (dateFormat d "his" ++ meridiem)
  = Some (mkFields (Some (hourIn meridiem (getHours d)))
            (Some (getMinutes d)) (Some (getSeconds d))).
Proof.
  intros Hd Hm. apply validTime_spec in Hd. destruct Hd as (Hh & Hi & Hs).
  change (dateFormat d "his")
    with (pad2 (hour12 (getHours d)) ++ pad2 (getMinutes d) ++ pad2 (getSeconds d)).
  rewrite !append_assoc.
  destruct (alternatives_hour (getHours d)
              (pad2 (getMinutes d) ++ pad2 (getSeconds d) ++ meridiem) Hh)
    as (A1 & P1 & B1 & _).
  destruct (alternatives_minute (getMinutes d) (pad2 (getSeconds d) ++ meridiem) Hi)
    as (A2 & _ & P2).
  destruct (alternatives_minute (getSeconds d) meridiem Hs) as (_ & A3 & P3).
  unfold scan. change (tokens false "hisA") with [Code_h; Code_i; Code_s; Code_A].
  rewrite (matchTokens_step _ _ _ _ _ A1), (matchTokens_step _ _ _ _ _ A2),
    (matchTokens_step _ _ _ _ _ A3), (matchTokens_meridiem _ Hm).
  change (readFields _) with
    (calcAtEnd (mkFields (Some (parseInt (pad2 (hour12 (getHours d)))))
                  (Some (parseInt (pad2 (getMinutes d)))) (Some (parseInt (pad2 (getSeconds d)))))
       (Code_A, meridiem)).
  rewrite P1, P2, P3, (meridiem_hour _ _ _ _ B1 Hm).
  now rewrite hourIn_hour12.
Qed.

(** Reading back the display text of the component's own formats. *)
Lemma scan_hiA (h i : Z) (meridiem : string) :
  0 <= h < 24 -> 0 <= i < 60 -> meridiem = "AM" \/ meridiem = "PM" ->
  scan "h:iA" (pad2 (hour12 h) ++ ":" ++ pad2 i ++ meridiem)
  = Some (mkFields (Some (hourIn meridiem h)) (Some i) None).
Proof.
  intros Hh Hi Hm.
  destruct (alternatives_hour h (":" ++ pad2 i ++ meridiem) Hh) as (A1 & P1 & B1 & _).
  destruct (alternatives_minute i meridiem Hi) as (A2 & _ & P2).
  unfold scan. change (tokens false "h:iA") with [Code_h; Literal ":"; Code_i; Code_A].
  rewrite (matchTokens_step _ _ _ _ _ A1),
    (matchTokens_step _ _ _ _ _ (alternatives_colon _)),
    (matchTokens_step _ _ _ _ _ A2), (matchTokens_meridiem _ Hm).
  change (readFields _) with
    (calcAtEnd (mkFields (Some (parseInt (pad2 (hour12 h))))
                  (Some (parseInt (pad2 i))) None)
       (Code_A, meridiem)).
  rewrite P1, P2, (meridiem_hour _ _ _ _ B1 Hm).
  now rewrite hourIn_hour12.
Qed.

Lemma scan_hisA (h i s : Z) (meridiem : string) :
  0 <= h < 24 -> 0 <= i < 60 -> 0 <= s < 60 -> meridiem = "AM" \/ meridiem = "PM" ->
  scan "h:i:sA" (pad2 (hour12 h) ++ ":" ++ pad2 i ++ ":" ++ pad2 s ++ meridiem)
  = Some (mkFields (Some (hourIn meridiem h)) (Some i) (Some s)).
Proof.
  intros Hh Hi Hs Hm.
  destruct (alternatives_hour h (":" ++ pad2 i ++ ":" ++ pad2 s ++ meridiem) Hh)
    as (A1 & P1 & B1 & _).
  destruct (alternatives_minute i (":" ++ pad2 s ++ meridiem) Hi) as (A2 & _ & P2).
  destruct (alternatives_minute s meridiem Hs) as (_ & A3 & P3).
  unfold scan.
  change (tokens false "h:i:sA")
    with [Code_h; Literal ":"; Code_i; Literal ":"; Code_s; Code_A].
  rewrite (matchTokens_step _ _ _ _ _ A1),
    (matchTokens_step _ _ _ _ _ (alternatives_colon _)),
    (matchTokens_step _ _ _ _ _ A2),
    (matchTokens_step _ _ _ _ _ (alternatives_colon _)),
    (matchTokens_step _ _ _ _ _ A3), (matchTokens_meridiem _ Hm).
  change (readFields _) with
    (calcAtEnd (mkFields (Some (parseInt (pad2 (hour12 h))))
                  (Some (parseInt (pad2 i))) (Some (parseInt (pad2 s))))
       (Code_A, meridiem)).
  rewrite P1, P2, P3, (meridiem_hour _ _ _ _ B1 Hm).
  now rewrite hourIn_hour12.
Qed.

(** ** The meridiem of a parsed time *)

Lemma alternatives_split (t : Token) (s m rest : string) :
  In (m, rest) (alternatives t s) -> s = m ++ rest.
Proof.
  destruct t; simpl alternatives; rewrite ?in_app_iff; intros H;
    repeat match goal with
    | H : _ \/ _ |- _ => destruct H
    | H : In _ (two _ _) |- _ =>
        apply two_In in H; destruct H as (a & b & -> & -> & _)
    | H : In _ (one _ _) |- _ =>
        apply one_In in H; destruct H as (a & -> & -> & _)
    end; reflexivity.
Qed.

Lemma alternatives_meridiem (t : Token) (s m rest : string) :
  isMeridiemCode t = true -> In (m, rest) (alternatives t s) ->
  exists a b, m = String a (String b EmptyString).
Proof.
  destruct t; try discriminate; intros _ H; simpl in H;
    apply two_In in H; destruct H as (a & b & -> & _); eauto.
Qed.

Lemma length_append (a b : string) :
  String.length (a ++ b) = (String.length a + String.length b)%nat.
Proof. induction a as [|c a IH]; simpl; [reflexivity|]. now rewrite IH. Qed.

Lemma append_same_suffix (u x m n : string) :
  u ++ m = x ++ n -> String.length m = String.length n -> m = n.
Proof.
  revert x. induction u as [|c u IH]; intros x H L.
  - destruct x as [|e x]; [exact H|].
    simpl in H. apply (f_equal String.length) in H.
    simpl in H. rewrite length_append in H. lia.
  - destruct x as [|e x].
    + simpl in H. apply (f_equal String.length) in H.
      simpl in H. rewrite length_append in H. lia.
    + simpl in H. injection H as _ H. exact (IH x H L).
Qed.

(** The groups of a match under a format that ends in a meridiem code: the
    last one is the meridiem, and it is the end of the input. *)
Lemma matchTokens_meridiemLast (toks : list Token) :
  meridiemLast toks = true ->
  forall (s : string) (groups : list (Token * string)),
    matchTokens toks s = Some groups ->
    exists before t a b u,
      groups = (before ++ [(t, String a (String b EmptyString))])%list
      /\ isMeridiemCode t = true
      /\ forallb (fun g => twelveHourCode (fst g)) before = true
      /\ s = u ++ String a (String b EmptyString).
Proof.
  induction toks as [|t rest IH]; [discriminate|].
  intros Hlast s groups H. cbn [matchTokens] in H.
  apply firstSome_In in H. destruct H as ([m s'] & Hin & H).
  cbv beta iota in H.
  destruct (matchTokens rest s') as [gs|] eqn:E; [|discriminate].
  injection H as <-.
  pose proof (alternatives_split t s m s' Hin) as Hs.
  destruct rest as [|t' rest'].
  - simpl in Hlast, E. destruct s'; [|discriminate]. injection E as <-.
    destruct (alternatives_meridiem t s m "" Hlast Hin) as (a & b & ->).
    exists [], t, a, b, "". repeat split; auto.
  - simpl in Hlast. apply andb_true_iff in Hlast. destruct Hlast as [Ht Hlast].
    destruct (IH Hlast s' gs E) as (before & tA & a & b & u & -> & HA & Hb & ->).
    exists ((t, m) :: before), tA, a, b, (m ++ u). repeat split; auto.
    + simpl. now rewrite Ht, Hb.
    + rewrite Hs. now rewrite append_assoc.
Qed.

Lemma calc_twelveHour (f : Fields) (g : Token * string) :
  twelveHourCode (fst g) = true -> groupBound g = true ->
  inBound (var_h f) 12 = true -> inBound (var_h (calc f g)) 12 = true.
Proof.
  destruct g as [t m]. unfold groupBound, calc. simpl fst. simpl snd.
  destruct t; simpl; try discriminate; auto.
Qed.

Lemma fold_calc_twelveHour (groups : list (Token * string)) :
  forall f,
    forallb (fun g => twelveHourCode (fst g)) groups = true ->
    forallb groupBound groups = true ->
    inBound (var_h f) 12 = true ->
    inBound (var_h (fold_left calc groups f)) 12 = true.
Proof.
  induction groups as [|g rest IH]; intros f Ht Hg Hf; simpl; [exact Hf|].
  simpl in Ht, Hg. apply andb_true_iff in Ht, Hg.
  destruct Ht as [Ht Ht'], Hg as [Hg Hg'].
  apply IH; auto. now apply calc_twelveHour.
Qed.

Lemma fold_calcAtEnd_twelveHour (groups : list (Token * string)) :
  forall f,
    forallb (fun g => twelveHourCode (fst g)) groups = true ->
    fold_left calcAtEnd groups f = f.
Proof.
  induction groups as [|g rest IH]; intros f Ht; simpl; [reflexivity|].
  simpl in Ht. apply andb_true_iff in Ht. destruct Ht as [Ht Ht'].
  rewrite <- (IH f Ht') at 2. f_equal.
  destruct g as [t m]. unfold calcAtEnd. simpl fst in *.
  destruct t; try reflexivity; discriminate.
Qed.

Lemma calc_meridiem (f : Fields) (t : Token) (m : string) :
  isMeridiemCode t = true -> calc f (t, m) = f.
Proof. destruct t; try discriminate; reflexivity. Qed.

Lemma calcAtEnd_meridiem (f : Fields) (t : Token) (meridiem : string) :
  isMeridiemCode t = true -> inBound (var_h f) 12 = true ->
  meridiem = "AM" \/ meridiem = "PM" ->
  exists v, var_h (calcAtEnd f (t, meridiem)) = Some v
            /\ (if v <? 12 then "AM" else "PM") = meridiem.
Proof.
  intros Ht Hb Hm. unfold calcAtEnd. simpl fst. simpl snd.
  replace (match t with Code_A | Code_a => _ | _ => f end)
    with (mkFields
            (if isAm meridiem
             then match var_h f with
                  | Some v => if (v =? 0) || (v =? 12) then Some 0 else Some v
                  | None => Some 0
                  end
             else match var_h f with
                  | Some v => if (v =? 0) || (v <? 12) then Some (v + 12) else Some v
                  | None => Some 12
                  end) (var_i f) (var_s f))
    by (destruct t; try discriminate; reflexivity).
  cbn [var_h].
  destruct Hm as [-> | ->].
  - change (isAm "AM") with true. cbv iota.
    destruct (var_h f) as [v|]; [|exists 0; split; reflexivity].
    apply inBound_Some in Hb.
    destruct ((v =? 0) || (v =? 12)) eqn:E; [exists 0; split; reflexivity|].
    apply orb_false_iff in E. destruct E as [E0 E12].
    apply Z.eqb_neq in E0, E12. exists v. split; [reflexivity|].
    replace (v <? 12) with true by (symmetry; apply Z.ltb_lt; lia). reflexivity.
  - change (isAm "PM") with false. cbv iota.
    destruct (var_h f) as [v|]; [|exists 12; split; reflexivity].
    apply inBound_Some in Hb.
    destruct ((v =? 0) || (v <? 12)) eqn:E.
    + exists (v + 12). split; [reflexivity|].
      replace (v + 12 <? 12) with false by (symmetry; apply Z.ltb_ge; lia).
      reflexivity.
    + apply orb_false_iff in E. destruct E as [_ E]. apply Z.ltb_ge in E.
      exists v. split; [reflexivity|].
      replace (v <? 12) with false by (symmetry; apply Z.ltb_ge; lia).
      reflexivity.
Qed.

(** Under such a format, the hour read from a text that ends in AM or PM
    lies in that half of the day. *)
Lemma scan_meridiem (fmt x meridiem : string) (f : Fields) :
  meridiemFormat fmt = true ->
  meridiem = "AM" \/ meridiem = "PM" ->
  scan fmt (x ++ meridiem) = Some f ->
  exists v, var_h f = Some v /\ (if v <? 12 then "AM" else "PM") = meridiem.
Proof.
  intros Hfmt Hm. unfold scan.
  destruct (matchTokens (tokens false fmt) (x ++ meridiem)) as [groups|] eqn:E;
    [|discriminate].
  intros H. injection H as <-.
  pose proof (matchTokens_bound _ _ _ E) as Hbound.
  destruct (matchTokens_meridiemLast _ Hfmt _ _ E)
    as (before & t & a & b & u & -> & Ht & Hb & Hs).
  assert (Em : String a (String b EmptyString) = meridiem).
  { apply (append_same_suffix u x). { now symmetry. }
    destruct Hm as [-> | ->]; reflexivity. }
  rewrite Em in *. clear Em Hs.
  rewrite forallb_app in Hbound. apply andb_true_iff in Hbound.
  destruct Hbound as [Hbound _].
  unfold readFields. rewrite !fold_left_app. simpl fold_left.
  rewrite (calc_meridiem _ t meridiem Ht).
  rewrite (fold_calcAtEnd_twelveHour before _ Hb).
  apply (calcAtEnd_meridiem _ t meridiem Ht); [|exact Hm].
  now apply fold_calc_twelveHour.
Qed.

Lemma parse_meridiem (now : JSDate) (fmt x meridiem : string)
      (strict : option bool) (d : JSDate) :
  validDay now = true ->
  meridiemFormat fmt = true ->
  meridiem = "AM" \/ meridiem = "PM" ->
  parse now (x ++ meridiem) fmt strict = Some d ->
  meridiemOf d = meridiem.
Proof.
  intros Hnow Hfmt Hm. rewrite parse_scan.
  destruct (scan fmt (x ++ meridiem)) as [f|] eqn:E; [|discriminate].
  destruct (build_shape now strict f Hnow (scan_ok _ _ _ E)) as (-> & _).
  destruct (scan_meridiem fmt x meridiem f Hfmt Hm E) as (v & Hv & Hmer).
  intros H. injection H as <-. unfold meridiemOf. cbn [getHours].
  rewrite Hv. exact Hmer.
Qed.

End ExtJSFacts.

(** * The parser *)

Section ParserClaims.

Context {host : Host}.

Lemma clearFits_spec (d : JSDate) :
  clearFits d = true <->
  getDate today <= daysInMonth (getFullYear d) (getMonth d)
  /\ getDate today <= daysInMonth (getFullYear d) (getMonth today).
Proof. unfold clearFits. rewrite andb_true_iff, !Z.leb_le. tauto. Qed.

Lemma clearFits_today (d : JSDate) :
  validDay today = true -> datePortion d = datePortion today -> clearFits d = true.
Proof.
  intros Hv Hd. apply ExtJSFacts.validDay_spec in Hv.
  unfold datePortion in Hd. injection Hd as Hy Hm Hdd.
  apply clearFits_spec. rewrite Hy, Hm. lia.
Qed.

(** A date is its date portion and its time of day. *)
Lemma date_eq (a b : JSDate) :
  datePortion a = datePortion b -> clock a = clock b -> a = b.
Proof.
  destruct a, b. unfold datePortion, clock. cbn. intros H1 H2.
  injection H1 as -> -> ->. injection H2 as -> -> -> ->. reflexivity.
Qed.

Lemma localTime_settled (t : JSDate) :
  ZoneKeepsDay -> NoGapAt (getHours t) (getMinutes t) -> localTime t = t.
Proof.
  intros Hz Hg. apply date_eq; [apply Hz|]. now apply Hg.
Qed.

Lemma withDay_day (y m d : Z) (t : JSDate) :
  ZoneKeepsDay -> datePortion (withDay (y, m, d) t) = (y, m, d).
Proof. intros Hz. unfold withDay. now rewrite Hz. Qed.

Lemma setSeconds_day (s : Z) (t : JSDate) :
  ZoneKeepsDay -> datePortion (setSeconds s t) = datePortion t.
Proof. intros Hz. unfold setSeconds. now rewrite Hz. Qed.

(** The three setters of [clearDate], one after the other, when none runs
    past the end of a month: each lands on the day it asks for when the zone
    keeps the day. *)
Lemma setters_fit_day (d : JSDate) :
  validDay today = true -> clearFits d = true -> ZoneKeepsDay ->
  datePortion (setFullYear (getFullYear today)
                 (setMonth (getMonth today) (setDate (getDate today) d)))
  = datePortion today.
Proof.
  intros Hv Hf Hz. apply ExtJSFacts.validDay_spec in Hv. apply clearFits_spec in Hf.
  assert (E1 : datePortion (setDate (getDate today) d)
               = (getFullYear d, getMonth d, getDate today)).
  { unfold setDate. rewrite (ExtJSFacts.makeDay_fits _ _ _ (proj1 Hf)).
    now apply withDay_day. }
  set (d1 := setDate (getDate today) d) in *.
  unfold datePortion in E1. injection E1 as Ey1 Em1 Ed1.
  assert (E2 : datePortion (setMonth (getMonth today) d1)
               = (getFullYear d, getMonth today, getDate today)).
  { unfold setMonth. rewrite Ey1, Ed1.
    rewrite (ExtJSFacts.makeDay_fits _ _ _ (proj2 Hf)). now apply withDay_day. }
  set (d2 := setMonth (getMonth today) d1) in *.
  unfold datePortion in E2. injection E2 as Ey2 Em2 Ed2.
  unfold setFullYear. rewrite Em2, Ed2.
  rewrite (ExtJSFacts.makeDay_fits _ _ _ (proj2 (proj2 Hv))). now apply withDay_day.
Qed.

(** [clearDate] gives the current day when no setter runs past the end of
    a month and the zone keeps the day. *)
Lemma clearDate_fits_day (me : Field) (d : JSDate) :
  validDay today = true -> clearFits d = true -> ZoneKeepsDay ->
  exists r, clearDate me (DateV d) = DateV r /\ datePortion r = datePortion today.
Proof.
  intros Hv Hf Hz. unfold clearDate. eexists. split; [reflexivity|].
  destruct (negb (captureSeconds me)).
  - rewrite (setSeconds_day _ _ Hz). now apply setters_fit_day.
  - now apply setters_fit_day.
Qed.

Lemma withDay_settled (h i : Z) (y m d : Z) (t : JSDate) :
  ZoneKeepsDay -> NoGapAt h i -> getHours t = h -> getMinutes t = i ->
  withDay (y, m, d) t
  = mkJSDate y m d (getHours t) (getMinutes t) (getSeconds t) (getMilliseconds t).
Proof.
  intros Hz Hg <- <-. unfold withDay. apply localTime_settled; [exact Hz|exact Hg].
Qed.

(** [clearDate] gives the current day when no setter runs past the end of
    a month, and leaves hours and minutes as they are, in a zone that keeps
    the day and has no gap at that time. *)
Lemma clearDate_fits (me : Field) (d : JSDate) :
  validDay today = true -> clearFits d = true ->
  ZoneKeepsDay -> NoGapAt (getHours d) (getMinutes d) ->
  clearDate me (DateV d)
  = DateV (mkJSDate (getFullYear today) (getMonth today) (getDate today)
             (getHours d) (getMinutes d)
             (if captureSeconds me then getSeconds d else 0)
             (getMilliseconds d)).
Proof.
  intros Hv Hf Hz Hg. apply ExtJSFacts.validDay_spec in Hv. apply clearFits_spec in Hf.
  assert (Hstep : forall y m dd t,
             getHours t = getHours d -> getMinutes t = getMinutes d ->
             withDay (y, m, dd) t
             = mkJSDate y m dd (getHours t) (getMinutes t) (getSeconds t)
                 (getMilliseconds t)).
  { intros y m dd t Hh Hi. exact (withDay_settled _ _ y m dd t Hz Hg Hh Hi). }
  unfold clearDate, setDate, setMonth, setFullYear.
  rewrite (ExtJSFacts.makeDay_fits _ _ _ (proj1 Hf)).
  rewrite (Hstep _ _ _ d eq_refl eq_refl).
  cbn [getFullYear getMonth getDate].
  rewrite (ExtJSFacts.makeDay_fits _ _ _ (proj2 Hf)).
  rewrite Hstep by reflexivity.
  cbn [getFullYear getMonth getDate getHours getMinutes getSeconds getMilliseconds].
  rewrite (ExtJSFacts.makeDay_fits _ _ _ (proj2 (proj2 Hv))).
  rewrite Hstep by reflexivity.
  cbn [getFullYear getMonth getDate getHours getMinutes getSeconds getMilliseconds].
  destruct (captureSeconds me); cbn [negb]; [reflexivity|].
  unfold setSeconds. f_equal.
  cbn [getFullYear getMonth getDate getHours getMinutes getSeconds getMilliseconds].
  apply localTime_settled; [exact Hz|exact Hg].
Qed.

Lemma clearDate_Cleared (me : Field) (d : JSDate) :
  exists r, clearDate me (DateV d) = DateV r /\ Cleared me d r.
Proof.
  assert (E : exists r, clearDate me (DateV d) = DateV r)
    by (unfold clearDate; eauto).
  destruct E as [r E]. exists r. split; [exact E|]. split; [|split].
  - unfold clearDate in E. injection E as <-. now destruct (captureSeconds me).
  - intros Hv Hf Hz. destruct (clearDate_fits_day me d Hv Hf Hz) as (r' & E' & Hr').
    congruence.
  - intros Hv Hf Hz Hg. rewrite (clearDate_fits me d Hv Hf Hz Hg) in E. congruence.
Qed.

Lemma SearchOutcome_of_FirstParse (me : Field) (s : string) (r : option JSDate) :
  FirstParse me (parseInput me s) (format me :: fallbackFormats me) r ->
  SearchOutcome me s (parsedResult me r).
Proof.
  intros H. unfold SearchOutcome. fold (parseInput me s). cbv zeta.
  destruct r as [d|].
  - left. destruct (FirstParse_some_split _ _ _ _ H) as (before & fmt & after & E & Hb & Hf).
    destruct (clearDate_Cleared me d) as (r & Hr & Hc).
    exists before, fmt, after, d, r. simpl parsedResult. auto 7.
  - right. split; [|reflexivity]. now apply FirstParse_none_iff.
Qed.

(** C1.  For every non-empty raw string, [parseDate] appends the current
    meridiem value to the string and tries the primary format, then each
    fallback format in order; it returns the first successful parse with its
    date portion cleared by [clearDate] (through [safeParse]), or [null]
    when no format succeeds.  Cleared, the parse has had its day of the
    month, month and year set, in this order, to those of the clock, and its
    seconds to 0 unless they are captured: it is on the current date
    whenever no setter runs past the end of a month and the zone keeps the
    day, and it is then that date at the parsed time of day when the zone
    skips that time on no day. *)
Theorem parseDate_first_successful_format (me : Field) (s : string) :
  s <> "" -> SearchOutcome me s (parseDate me (Str s)).
Proof.
  intros Hs.
  destruct (FirstParse_total me (parseInput me s) (format me :: fallbackFormats me))
    as [r Hr].
  rewrite (parseDate_first me s r Hs Hr).
  now apply SearchOutcome_of_FirstParse.
Qed.

Lemma rawToValue_falsy (me : Field) (v : Value) :
  truthy v = false -> rawToValue me v = Null.
Proof.
  intros H. unfold rawToValue, jsOr. rewrite (parseDate_falsy me v H), H.
  cbv iota. now rewrite H.
Qed.

Lemma getErrors_blank (me : Field) (v : Value) :
  truthy v = false -> rawValue me = "" ->
  getErrors me v = Normal (Text_getErrors me v).
Proof.
  intros H Hraw. unfold getErrors, jsOr, processRawValue.
  rewrite H, Hraw. reflexivity.
Qed.

(** C9.  [formatDate] renders a [Date] as text with the configured format
    string, and returns every other input (a string, [null], [undefined])
    unchanged. *)
Theorem formatDate_date_or_unchanged (me : Field) :
  (forall d, formatDate me (DateV d) = Str (ExtDate_format d (format me)))
  /\ (forall v, isDate v = false -> formatDate me v = v).
Proof.
  split; [reflexivity|]. intros [| |s|d]; simpl; congruence.
Qed.

Lemma rawToValue_Null_falsy (me : Field) (v : Value) :
  rawToValue me v = Null -> truthy v = false.
Proof.
  unfold rawToValue, jsOr.
  destruct (truthy (parseDate me v)) eqn:Ep; cbv iota.
  - rewrite Ep. intros E. rewrite E in Ep. discriminate.
  - destruct (truthy v) eqn:Ev; cbv iota; [|reflexivity].
    intros E. rewrite E in Ev. discriminate.
Qed.

(** C10.  For every non-empty raw string that fails to parse under the
    primary format and all the fallback formats, [rawToValue] returns the raw
    string itself, not [null]; and [rawToValue] returns [null] only when the
    raw input is itself falsy. *)
Theorem rawToValue_keeps_unparsed_text (me : Field) (s : string) :
  s <> "" ->
  (forall fmt, In fmt (format me :: fallbackFormats me) ->
               ExtDate_parse (s ++ toStr (meridiemValue me)) fmt (useStrict me) = None) ->
  rawToValue me (Str s) = Str s
  /\ rawToValue me (Str s) <> Null
  /\ (forall v, rawToValue me v = Null -> truthy v = false).
Proof.
  intros Hs Hfail.
  assert (E : rawToValue me (Str s) = Str s).
  { apply FirstParse_none_iff in Hfail.
    unfold rawToValue. rewrite (parseDate_first me s None Hs Hfail).
    apply truthy_Str in Hs. unfold jsOr. simpl parsedResult. simpl (truthy Null).
    cbv iota. now rewrite Hs. }
  repeat split.
  - exact E.
  - rewrite E. discriminate.
  - apply rawToValue_Null_falsy.
Qed.

(** C8.  Whenever [setValue] runs and no meridiem value has been
    established (none is held by the field, and the value being set yields
    none), the current meridiem becomes 'PM' if the hour of the wall clock
    is 12 or greater, and 'AM' otherwise. *)
Theorem setValue_defaults_meridiem_from_clock (me : Field) (v : Value) :
  truthyStr (meridiemValue me) = false ->
  (forall r, valueToRaw me v = Str r -> lastTwo r = "") ->
  meridiemValue (setValue me v)
  = Some (if getHours today >=? 12 then "PM" else "AM").
Proof.
  intros Hm Hv. unfold setValue.
  destruct (valueToRaw me v) as [| |r|d] eqn:E; simpl; rewrite ?Hm; simpl;
    try reflexivity.
  rewrite (Hv r eq_refl). simpl. rewrite Hm. reflexivity.
Qed.

(** Parsing does not look at the bounds. *)
Lemma parseAlt_set_minValue (me : Field) (b : Value) (input : string)
      (fmts : list string) :
  forall v, parseAlt (set_minValue b me) input fmts v = parseAlt me input fmts v.
Proof.
  induction fmts as [|fmt rest IH]; intros v; simpl; [reflexivity|].
  destruct (negb (truthy v)); [|reflexivity]. apply IH.
Qed.

Lemma parseDate_set_minValue (me : Field) (b v : Value) :
  parseDate (set_minValue b me) v = parseDate me v.
Proof.
  unfold parseDate. destruct (negb (truthy v) || isDate v); [reflexivity|].
  destruct v as [| |s|d]; try reflexivity.
  cbn [format altFormats altFormatsArray meridiemValue set_minValue].
  change (safeParse (set_minValue b me)) with (safeParse me).
  destruct (negb (truthy (safeParse me (s ++ toStr (meridiemValue me)) (format me)))
            && negb (String.eqb (altFormats me) "")); [|reflexivity].
  apply parseAlt_set_minValue.
Qed.



Lemma initComponent_minValue (me : Field) :
  minValue (initComponent me)
  = if isString (minValue me) then parseDate me (minValue me) else minValue me.
Proof.
  unfold initComponent.
  destruct (isString (minValue me)), (isString (maxValue me));
    cbn [maxValue minValue set_minValue set_maxValue captureSeconds];
    destruct (captureSeconds me); cbn; destruct (invalidTextFormat me); reflexivity.
Qed.

Lemma initComponent_maxValue (me : Field) :
  maxValue (initComponent me)
  = if isString (maxValue me) then parseDate me (maxValue me) else maxValue me.
Proof.
  unfold initComponent.
  destruct (isString (minValue me)), (isString (maxValue me));
    cbn [maxValue minValue set_minValue set_maxValue captureSeconds];
    destruct (captureSeconds me); cbn; destruct (invalidTextFormat me);
    rewrite ?parseDate_set_minValue; reflexivity.
Qed.

End ParserClaims.

(** * The validator *)

Section ValidatorClaims.

Context {host : Host}.

(** The text that is validated is always a string. *)
Lemma formattedCandidate_Str (me : Field) (v : Value) :
  exists fv, formattedCandidate me v = Str fv.
Proof.
  unfold formattedCandidate, jsOr.
  destruct v as [| |s|d]; simpl; eauto.
  destruct (negb (String.eqb s "")); simpl; eauto.
Qed.

Lemma getErrors_Str (me : Field) (v : Value) (fv : string) :
  formattedCandidate me v = Str fv -> fv <> "" ->
  getErrors me v
  = match parseDate me (Str fv) with
    | DateV parsedValue => checkBounds me parsedValue (Text_getErrors me v)
    | Str p =>
        if truthy (Str p) then Throw
        else Normal (Text_getErrors me v ++ [invalidError me fv])%list
    | _ => Normal (Text_getErrors me v ++ [invalidError me fv])%list
    end.
Proof.
  intros Hfv Hne. unfold getErrors. fold (formattedCandidate me v). rewrite Hfv.
  destruct fv as [|c fv]; [congruence|].
  replace (Z.of_nat (String.length (String c fv)) <? 1) with false; [reflexivity|].
  symmetry. apply Z.ltb_ge. simpl String.length. lia.
Qed.

Lemma checkBound_report (bound : Value) (violates : Z -> bool) (text : string)
      (me : Field) (errors : list string) :
  isBound bound = true ->
  checkBound bound violates text me errors
  = Normal (errors ++ match bound with
                      | DateV b =>
                          if violates (getTime b)
                          then [ExtString_format text [ExtDate_format b (format me)]]
                          else []
                      | _ => []
                      end)%list.
Proof.
  intros Hb. unfold checkBound.
  destruct bound as [| |s|b]; simpl; rewrite ?app_nil_r; try reflexivity.
  - simpl in Hb. rewrite Hb. reflexivity.
  - destruct (violates (getTime b)); now rewrite ?app_nil_r.
Qed.

(** Bounds set through the component are bounds in the sense of [isBound]. *)
Lemma parseDate_isBound (me : Field) (v : Value) :
  isString v = true -> isBound (parseDate me v) = true.
Proof.
  destruct v as [| |s|d]; try discriminate. intros _.
  destruct (String.eqb_spec s "") as [->|Hs]; [reflexivity|].
  destruct (parseDate_Str_cases me s Hs) as [[d ->] | ->]; reflexivity.
Qed.

Lemma setMinValue_isBound (me : Field) (v : Value) :
  isBound (minValue (setMinValue me v)) = true.
Proof.
  unfold setMinValue. simpl. destruct (isString v) eqn:E.
  - now apply parseDate_isBound.
  - destruct v; try reflexivity. discriminate.
Qed.

Lemma setMaxValue_isBound (me : Field) (v : Value) :
  isBound (maxValue (setMaxValue me v)) = true.
Proof.
  unfold setMaxValue. simpl. destruct (isString v) eqn:E.
  - now apply parseDate_isBound.
  - destruct v; try reflexivity. discriminate.
Qed.

Lemma initComponent_isBound (me : Field) :
  isBound (minValue (initComponent me)) = true
  /\ isBound (maxValue (initComponent me)) = true.
Proof.
  rewrite initComponent_minValue, initComponent_maxValue. split.
  - destruct (isString (minValue me)) eqn:E; [now apply parseDate_isBound|].
    destruct (minValue me); try reflexivity. discriminate.
  - destruct (isString (maxValue me)) eqn:E; [now apply parseDate_isBound|].
    destruct (maxValue me); try reflexivity. discriminate.
Qed.

(** On one day, the order of two timestamps is the order of the times of
    day. *)
Lemma getTime_same_day (p m : JSDate) :
  datePortion m = datePortion p ->
  getTime p - getTime m = timeOfDay p - timeOfDay m.
Proof.
  unfold datePortion, getTime, timeOfDay. intros E. injection E as -> -> ->. ring.
Qed.

(** C2, amended.  For every candidate value whose formatted text re-parses
    successfully, [getErrors] compares timestamps ([getTime]), the date
    portion included: it appends a "before minimum" error exactly when
    [minValue] is configured and the timestamp of the parsed value is
    strictly before that of [minValue], appends an "after maximum" error
    exactly when [maxValue] is configured and the timestamp of the parsed
    value is strictly after that of [maxValue], appends no bound error
    otherwise, and runs both checks: the errors accumulate after those of
    the parent class.  For a bound on the day of the parsed value this is
    the comparison of the two times of day. *)
Theorem getErrors_reports_bounds (me : Field) (v : Value) (p : JSDate) :
  isBound (minValue me) = true ->
  isBound (maxValue me) = true ->
  parseDate me (formattedCandidate me v) = DateV p ->
  exists lo hi,
    getErrors me v = Normal (Text_getErrors me v ++ lo ++ hi)%list
    /\ MinReport me p lo
    /\ MaxReport me p hi
    /\ (forall m, minValue me = DateV m -> datePortion m = datePortion p ->
        (timeOfDay p < timeOfDay m -> lo = [beforeMinimum me m])
        /\ (timeOfDay m <= timeOfDay p -> lo = []))
    /\ (forall m, maxValue me = DateV m -> datePortion m = datePortion p ->
        (timeOfDay m < timeOfDay p -> hi = [afterMaximum me m])
        /\ (timeOfDay p <= timeOfDay m -> hi = [])).
Proof.
  intros Hmin Hmax Hp.
  destruct (formattedCandidate_Str me v) as [fv Hfv]. rewrite Hfv in Hp.
  assert (Hne : fv <> "").
  { intros ->. rewrite parseDate_falsy in Hp by reflexivity. discriminate. }
  rewrite (getErrors_Str me v fv Hfv Hne), Hp. unfold checkBounds.
  rewrite (checkBound_report _ _ _ _ _ Hmin), (checkBound_report _ _ _ _ _ Hmax).
  rewrite <- app_assoc.
  eexists. eexists. split; [reflexivity|].
  split; [|split; [|split]].
  - unfold MinReport. destruct (minValue me) as [| |s|m];
      try (right; split; [intros m' E; discriminate|reflexivity]).
    destruct (getTime p <? getTime m) eqn:E.
    + left. exists m. apply Z.ltb_lt in E. auto.
    + right. apply Z.ltb_ge in E. split; [|reflexivity].
      intros m' Em. injection Em as <-. exact E.
  - unfold MaxReport. destruct (maxValue me) as [| |s|m];
      try (right; split; [intros m' E; discriminate|reflexivity]).
    destruct (getTime p >? getTime m) eqn:E.
    + left. exists m. apply Z.gtb_lt in E. repeat split; auto. lia.
    + right. split; [|reflexivity].
      intros m' Em. injection Em as <-.
      destruct (Z.gtb_spec (getTime p) (getTime m)); [discriminate|lia].
  - intros m Em Hday. rewrite Em. pose proof (getTime_same_day p m Hday) as Ht.
    unfold beforeMinimum. split; intros H.
    + replace (getTime p <? getTime m) with true; [reflexivity|].
      symmetry. apply Z.ltb_lt. lia.
    + replace (getTime p <? getTime m) with false; [reflexivity|].
      symmetry. apply Z.ltb_ge. lia.
  - intros m Em Hday. rewrite Em. pose proof (getTime_same_day p m Hday) as Ht.
    unfold afterMaximum. split; intros H.
    + replace (getTime p >? getTime m) with true; [reflexivity|].
      symmetry. apply Z.gtb_lt. lia.
    + replace (getTime p >? getTime m) with false; [reflexivity|].
      symmetry. destruct (Z.gtb_spec (getTime p) (getTime m)); [lia|reflexivity].
Qed.

(** C3, amended.  For every candidate value whose formatted text is not
    empty, [getErrors] re-parses the formatted text; if the re-parse fails it
    appends one "invalid format" error, built from [invalidText] with the
    text and the expected pattern [invalidTextFormat], and returns without
    looking at the bounds. *)
Theorem getErrors_reports_invalid_format (me : Field) (v : Value) (fv : string) :
  formattedCandidate me v = Str fv ->
  fv <> "" ->
  truthy (parseDate me (Str fv)) = false ->
  getErrors me v
  = Normal (Text_getErrors me v
            ++ [ExtString_format (invalidText me)
                  [(fv ++ " " ++ toStr (meridiemValue me))%string;
                   toStr (invalidTextFormat me)]])%list.
Proof.
  intros Hfv Hne Hp. rewrite (getErrors_Str me v fv Hfv Hne).
  destruct (parseDate me (Str fv)) as [| |q|d]; try reflexivity.
  - rewrite Hp. reflexivity.
  - discriminate.
Qed.

Lemma getErrors_empty (me : Field) (v : Value) :
  formattedCandidate me v = Str "" ->
  getErrors me v = Normal (Text_getErrors me v).
Proof.
  intros H. unfold getErrors. fold (formattedCandidate me v). now rewrite H.
Qed.

(** With bounds as the component keeps them, validation never raises. *)
Lemma getErrors_completes (me : Field) (v : Value) :
  isBound (minValue me) = true -> isBound (maxValue me) = true ->
  exists errors, getErrors me v = Normal errors.
Proof.
  intros Hmin Hmax. destruct (formattedCandidate_Str me v) as [fv Hfv].
  destruct (String.eqb_spec fv "") as [->|Hne].
  - rewrite (getErrors_empty me v Hfv). eauto.
  - rewrite (getErrors_Str me v fv Hfv Hne).
    destruct (parseDate_Str_cases me fv Hne) as [[p ->] | ->]; [|eauto].
    unfold checkBounds.
    rewrite (checkBound_report _ _ _ _ _ Hmin), (checkBound_report _ _ _ _ _ Hmax).
    eauto.
Qed.

(** C7, amended.  For every falsy raw input (the empty string, [null],
    [undefined]), [parseDate] hands the input back unchanged, so that its
    result is falsy and never a [Date] (it is [null] only for the input
    [null]); [rawToValue] turns each of them into [null]; and no exception
    is raised: validating such a value completes with a list of errors, which
    for a blank field holds no error of the component's own. *)
Theorem falsy_input_is_not_parsed (me : Field) (v : Value) :
  truthy v = false ->
  parseDate me v = v
  /\ truthy (parseDate me v) = false
  /\ rawToValue me v = Null
  /\ (rawValue me = "" -> getErrors me v = Normal (Text_getErrors me v))
  /\ (isBound (minValue me) = true -> isBound (maxValue me) = true ->
      exists errors, getErrors me v = Normal errors).
Proof.
  intros H. rewrite (parseDate_falsy me v H).
  repeat split; auto using rawToValue_falsy, getErrors_blank, getErrors_completes.
Qed.

End ValidatorClaims.

(** * Dates *)

Section DateClaims.

Context {host : Host}.

Lemma parseDate_Str_origin (me : Field) (s : string) (d : JSDate) :
  parseDate me (Str s) = DateV d ->
  exists fmt d0,
    In fmt (format me :: fallbackFormats me)
    /\ ExtDate_parse (s ++ toStr (meridiemValue me)) fmt (useStrict me) = Some d0
    /\ clearDate me (DateV d0) = DateV d.
Proof.
  intros H.
  assert (Hs : s <> "").
  { intros ->. rewrite parseDate_falsy in H by reflexivity. discriminate. }
  destruct (FirstParse_total me (parseInput me s) (format me :: fallbackFormats me))
    as [r Hr].
  rewrite (parseDate_first me s r Hs Hr) in H.
  destruct r as [d0|]; [|discriminate].
  destruct (FirstParse_some_split _ _ _ _ Hr) as (before & fmt & after & E & _ & Hf).
  exists fmt, d0. repeat split; auto.
  rewrite E. apply in_or_app. right. now left.
Qed.


End DateClaims.

(** * The component on the reference host *)

Section ReferenceHost.

Import ExtJS ExtJSAux ExtJSFacts.

Variable now : JSDate.
Variable textErrors : Field -> Value -> list string.
Hypothesis now_valid : validDay now = true.

#[local] Instance refHost : Host := ExtJS.host now textErrors.

(** The zone of the reference host shows every local time as asked for. *)
Lemma ref_keeps_day : ZoneKeepsDay.
Proof. intros t. reflexivity. Qed.

Lemma ref_no_gap (h i : Z) : NoGapAt h i.
Proof. intros t _ _. reflexivity. Qed.

(** What [parseDate] makes of a string is a time of the current day, with
    no milliseconds, and no seconds unless they are captured. *)
Lemma parsed_shape (me : Field) (s : string) (d : JSDate) :
  parseDate me (Str s) = DateV d ->
  d = mkJSDate (getFullYear now) (getMonth now) (getDate now)
        (getHours d) (getMinutes d) (getSeconds d) 0
  /\ validTime d = true
  /\ (captureSeconds me = false -> getSeconds d = 0).
Proof.
  intros H. destruct (parseDate_Str_origin me s d H) as (fmt & d0 & _ & Hf & Hc).
  destruct (parse_shape now _ _ _ d0 now_valid Hf) as (Hd & Hms & Hvt).
  rewrite (clearDate_fits (host := refHost) me d0 now_valid
             (clearFits_today (host := refHost) d0 now_valid Hd)
             ref_keeps_day (ref_no_gap _ _)) in Hc.
  injection Hc as <-. cbn [getHours getMinutes getSeconds].
  rewrite Hms. split; [reflexivity|]. split.
  - apply validTime_spec in Hvt. apply validTime_spec. simpl.
    destruct (captureSeconds me); lia.
  - intros ->. reflexivity.
Qed.

Lemma getValue_date (me : Field) (d : JSDate) :
  getValue me = DateV d -> parseDate me (Str (rawValue me)) = DateV d.
Proof.
  unfold getValue, rawToValue, jsOr, processRawValue.
  destruct (String.eqb_spec (rawValue me) "") as [E|E].
  - rewrite E. simpl. discriminate.
  - destruct (parseDate_Str_cases me (rawValue me) E) as [[d' Hd] | Hn].
    + rewrite Hd. simpl. congruence.
    + rewrite Hn. simpl. destruct (negb (String.eqb (rawValue me) "")); discriminate.
Qed.

Lemma hourIn_facts (h : Z) (meridiem : string) :
  0 <= h < 24 -> meridiem = "AM" \/ meridiem = "PM" ->
  0 <= hourIn meridiem h < 24
  /\ hourIn meridiem h mod 12 = h mod 12
  /\ (if hourIn meridiem h <? 12 then "AM" else "PM") = meridiem.
Proof.
  intros Hh Hm. unfold hourIn.
  pose proof (Z.mod_pos_bound h 12 ltac:(lia)) as Hb.
  destruct Hm as [-> | ->].
  - change (String.eqb "AM" "PM") with false. cbv iota. rewrite Z.add_0_r.
    split; [lia|]. split; [apply Z.mod_mod; lia|].
    replace (h mod 12 <? 12) with true by (symmetry; apply Z.ltb_lt; lia).
    reflexivity.
  - change (String.eqb "PM" "PM") with true. cbv iota.
    split; [lia|]. split.
    + replace (h mod 12 + 12) with (h mod 12 + 1 * 12) by lia.
      rewrite Z.mod_add by lia. apply Z.mod_mod. lia.
    + replace (h mod 12 + 12 <? 12) with false by (symmetry; apply Z.ltb_ge; lia).
      reflexivity.
Qed.

Lemma substring_skip (x y : string) (n : nat) :
  String.substring (String.length x) n (x ++ y) = String.substring 0 n y.
Proof. induction x as [|c x IH]; simpl; [reflexivity|exact IH]. Qed.

Lemma lastTwo_append (x : string) (a b : ascii) :
  lastTwo (x ++ String a (String b EmptyString)) = String a (String b EmptyString).
Proof.
  unfold lastTwo. rewrite length_append. simpl String.length.
  replace (String.length x + 2 - 2)%nat with (String.length x) by lia.
  rewrite substring_skip.
  replace (String.length x + 2)%nat with (S (S (String.length x))) by lia.
  simpl. now destruct (String.length x).
Qed.

Lemma isMeridiemText_two (m : string) :
  isMeridiemText m = true -> exists a b, m = String a (String b EmptyString).
Proof.
  destruct m as [|a [|b [|c m]]]; try discriminate. eauto.
Qed.

Lemma stripMeridiem_append (x m : string) :
  isMeridiemText m = true -> stripMeridiem (x ++ m) = x.
Proof.
  intros Hm. destruct (isMeridiemText_two m Hm) as (a & b & ->).
  induction x as [|c x IH].
  - simpl append. unfold stripMeridiem. now rewrite Hm.
  - simpl append.
    change (stripMeridiem (String c (x ++ String a (String b EmptyString))))
      with (if isMeridiemText (String c (x ++ String a (String b EmptyString)))
            then EmptyString
            else String c (stripMeridiem (x ++ String a (String b EmptyString)))).
    rewrite IH.
    replace (isMeridiemText (String c (x ++ String a (String b EmptyString))))
      with false; [reflexivity|].
    destruct x as [|e [|e' x]]; reflexivity.
Qed.

Lemma meridiemOf_cases (d : JSDate) :
  meridiemOf d = "AM" \/ meridiemOf d = "PM".
Proof. unfold meridiemOf. destruct (getHours d <? 12); auto. Qed.

Lemma meridiemOf_text (d : JSDate) : isMeridiemText (meridiemOf d) = true.
Proof. destruct (meridiemOf_cases d) as [-> | ->]; reflexivity. Qed.

Lemma displayText_not_empty (me : Field) (d : JSDate) : displayText me d <> "".
Proof.
  unfold displayText.
  destruct (captureSeconds me);
    destruct (pad2 (hour12 (getHours d))); discriminate.
Qed.

Lemma formatDate_ownFormat (me : Field) (d : JSDate) :
  ownFormat me ->
  formatDate me (DateV d) = Str (displayText me d ++ meridiemOf d).
Proof.
  intros [[Hf Hc] | [Hf Hc]]; unfold formatDate, displayText; rewrite Hf, Hc;
    cbv iota; rewrite !append_assoc; reflexivity.
Qed.

(** The framework reads the display text, followed by the meridiem of the
    time, back as that time on the current day. *)
Lemma parse_displayText (me : Field) (d : JSDate) (strict : option bool) :
  ownFormat me -> validTime d = true ->
  parse now (displayText me d ++ meridiemOf d) (format me) strict
  = Some (mkJSDate (getFullYear now) (getMonth now) (getDate now)
            (getHours d) (getMinutes d)
            (if captureSeconds me then getSeconds d else 0) 0).
Proof.
  intros Hown Hvt. apply validTime_spec in Hvt. destruct Hvt as (Hh & Hi & Hs).
  pose proof (meridiemOf_cases d) as Hm.
  assert (Hhour : hourIn (meridiemOf d) (getHours d) = getHours d)
    by (apply hourIn_own; exact Hh).
  rewrite parse_scan.
  destruct Hown as [[Hf Hc] | [Hf Hc]]; unfold displayText; rewrite Hf, Hc;
    cbv iota; rewrite !append_assoc.
  - change (":" ++ pad2 (getMinutes d) ++ meridiemOf d)
      with (":" ++ (pad2 (getMinutes d) ++ meridiemOf d)).
    rewrite (scan_hiA _ _ _ Hh Hi Hm), Hhour.
    assert (Hok : fieldsOK (mkFields (Some (getHours d)) (Some (getMinutes d)) None) = true).
    { apply fieldsOK_spec. cbn [var_h var_i var_s]. rewrite !inBound_Some.
      repeat split; try lia. }
    destruct (build_shape now strict _ now_valid Hok) as (-> & _). reflexivity.
  - rewrite (scan_hisA _ _ _ _ Hh Hi Hs Hm), Hhour.
    assert (Hok : fieldsOK (mkFields (Some (getHours d)) (Some (getMinutes d))
                              (Some (getSeconds d))) = true).
    { apply fieldsOK_spec. cbn [var_h var_i var_s]. rewrite !inBound_Some. lia. }
    destruct (build_shape now strict _ now_valid Hok) as (-> & _). reflexivity.
Qed.

(** The display text of a time of the current day re-parses to that time
    when the meridiem showing is its own. *)
Lemma reparse_displayText (me : Field) (d : JSDate) :
  ownFormat me ->
  datePortion d = datePortion now -> getMilliseconds d = 0 ->
  validTime d = true -> (captureSeconds me = false -> getSeconds d = 0) ->
  meridiemValue me = Some (meridiemOf d) ->
  parseDate me (Str (displayText me d)) = DateV d.
Proof.
  intros Hown Hday Hms Hvt Hsec Hmer.
  assert (Hp : FirstParse me (parseInput me (displayText me d))
                 (format me :: fallbackFormats me)
                 (Some (mkJSDate (getFullYear now) (getMonth now) (getDate now)
                          (getHours d) (getMinutes d)
                          (if captureSeconds me then getSeconds d else 0) 0))).
  { constructor. unfold parseInput. rewrite Hmer. simpl toStr.
    exact (parse_displayText me d (useStrict me) Hown Hvt). }
  rewrite (parseDate_first me _ _ (displayText_not_empty me d) Hp).
  unfold parsedResult.
  match goal with
  | |- clearDate me (DateV ?d1) = _ =>
      rewrite (clearDate_fits (host := refHost) me d1 now_valid
                 (clearFits_today (host := refHost) d1 now_valid eq_refl)
             ref_keeps_day (ref_no_gap _ _))
  end.
  cbn [getHours getMinutes getSeconds getMilliseconds today refHost ExtJS.host].
  f_equal. destruct d as [y m dd h i s ms]. cbn in *.
  injection Hday as -> -> ->. subst ms.
  destruct (captureSeconds me) eqn:Ec; [reflexivity|].
  now rewrite (Hsec eq_refl).
Qed.



(** What [setValue] leaves in the field for a time given as a [Date]. *)
Lemma setValue_date (me : Field) (d : JSDate) :
  ownFormat me ->
  setValue me (DateV d)
  = set_meridiemValue (Some (meridiemOf d)) (set_rawValue (displayText me d) me).
Proof.
  intros Hown. unfold setValue, valueToRaw.
  rewrite parseDate_date, (formatDate_ownFormat me d Hown).
  rewrite (stripMeridiem_append _ _ (meridiemOf_text d)).
  destruct (isMeridiemText_two _ (meridiemOf_text d)) as (a & b & E).
  rewrite E, lastTwo_append. reflexivity.
Qed.


(** With formats of 12-hour codes that end in the meridiem code, as the
    defaults are, and AM or PM showing, every parsed time lies in the half
    of the day that is showing. *)
Lemma parsed_meridiem_is_current (me : Field) (x : string) (d : JSDate) :
  forallb meridiemFormat (format me :: fallbackFormats me) = true ->
  meridiemValue me = Some "AM" \/ meridiemValue me = Some "PM" ->
  parseDate me (Str x) = DateV d ->
  meridiemValue me = Some (meridiemOf d).
Proof.
  intros Hfmts Hm H.
  destruct (parseDate_Str_origin me x d H) as (fmt & d0 & Hin & Hf & Hc).
  rewrite forallb_forall in Hfmts. specialize (Hfmts fmt Hin).
  destruct (parse_shape now _ _ _ d0 now_valid Hf) as (Hd & _ & _).
  rewrite (clearDate_fits (host := refHost) me d0 now_valid
             (clearFits_today (host := refHost) d0 now_valid Hd)
             ref_keeps_day (ref_no_gap _ _)) in Hc.
  injection Hc as <-.
  assert (E : exists meridiem, meridiemValue me = Some meridiem
                               /\ (meridiem = "AM" \/ meridiem = "PM")).
  { destruct Hm as [Hm | Hm]; eauto. }
  destruct E as (meridiem & E & Hcase). rewrite E in Hf |- *. simpl toStr in Hf.
  f_equal. symmetry.
  change (meridiemOf d0 = meridiem).
  exact (parse_meridiem now fmt x meridiem (useStrict me) d0 now_valid Hfmts Hcase Hf).
Qed.

End ReferenceHost.

(** * The properties on the sample field

    The clock reads Wednesday 31 January 2024, 14:30:15; the field is the
    default field with PM showing. *)

Module Examples.

Import Sample.

#[local] Existing Instance Sample.host.

Definition bounded : Field :=
  setMaxValue (setMinValue field (Str "4:00")) (Str "2:00").

Definition typed (raw : string) : Field := set_rawValue raw field.

Lemma sample_now_valid : validDay now = true.
Proof. reflexivity. Qed.

(** The fallback formats of the class defaults. *)
Example fallbackFormats_defaults :
  fallbackFormats field = ["h:iA"; "hiA"; "g:iA"; "giA"; "hA"; "gA"].
Proof. reflexivity. Qed.

(** "3:45" with PM showing fails under [h:iA] (which wants two digits for
    the hour) and parses under the fallback [g:iA]. *)
Example parse_3_45 :
  ExtDate_parse "3:45PM" "h:iA" None = None
  /\ ExtDate_parse "3:45PM" "hiA" None = None
  /\ ExtDate_parse "3:45PM" "g:iA" None = Some (at_ 15 45 0)
  /\ parseDate field (Str "3:45") = DateV (at_ 15 45 0).
Proof. repeat split; reflexivity. Qed.

Example parse_345 :
  ExtDate_parse "345PM" "giA" None = Some (at_ 15 45 0)
  /\ parseDate field (Str "345") = DateV (at_ 15 45 0).
Proof. repeat split; reflexivity. Qed.

Example format_15_45 : formatDate field (DateV (at_ 15 45 0)) = Str "03:45PM".
Proof. reflexivity. Qed.

(** Every format of the field, before and after [initComponent] with
    seconds captured, is made of 12-hour codes and ends in the meridiem
    code. *)
Example formats_end_in_meridiem :
  forallb ExtJSAux.meridiemFormat (format field :: fallbackFormats field) = true
  /\ (let me := initComponent (set_captureSeconds true field) in
      forallb ExtJSAux.meridiemFormat (format me :: fallbackFormats me) = true).
Proof. split; reflexivity. Qed.

(** The first parse is cleared: with seconds in the format that are not
    captured, the seconds of the text are dropped. *)
Example parse_drops_seconds :
  ExtDate_parse "03:45:30PM" "h:i:sA" None = Some (at_ 15 45 30)
  /\ parseDate (set_config "h:i:sA" "" None None field) (Str "03:45:30")
     = DateV (at_ 15 45 0).
Proof. split; reflexivity. Qed.

(** Witness of C1: the raw text "345". *)
Lemma parseDate_first_successful_format_holds :
  "345" <> "" /\ SearchOutcome field "345" (DateV (at_ 15 45 0)).
Proof.
  split; [discriminate|].
  exact (parseDate_first_successful_format field "345" ltac:(discriminate)).
Defined.

(** Witness of C2, amended: 3:45 PM against a minimum of 4:00 PM and a
    maximum of 2:00 PM, both of the current day, breaks both bounds. *)
Lemma getErrors_reports_bounds_holds :
  isBound (minValue bounded) = true
  /\ isBound (maxValue bounded) = true
  /\ parseDate bounded (formattedCandidate bounded (Str "3:45")) = DateV (at_ 15 45 0)
  /\ exists lo hi,
      getErrors bounded (Str "3:45")
      = Normal (Text_getErrors bounded (Str "3:45") ++ lo ++ hi)%list
      /\ MinReport bounded (at_ 15 45 0) lo
      /\ MaxReport bounded (at_ 15 45 0) hi
      /\ (forall m, minValue bounded = DateV m ->
                    datePortion m = datePortion (at_ 15 45 0) ->
          (timeOfDay (at_ 15 45 0) < timeOfDay m -> lo = [beforeMinimum bounded m])
          /\ (timeOfDay m <= timeOfDay (at_ 15 45 0) -> lo = []))
      /\ (forall m, maxValue bounded = DateV m ->
                    datePortion m = datePortion (at_ 15 45 0) ->
          (timeOfDay m < timeOfDay (at_ 15 45 0) -> hi = [afterMaximum bounded m])
          /\ (timeOfDay (at_ 15 45 0) <= timeOfDay m -> hi = [])).
Proof.
  repeat (split; [reflexivity|]).
  exact (getErrors_reports_bounds bounded (Str "3:45") (at_ 15 45 0)
           eq_refl eq_refl eq_refl).
Defined.

(** Counterexample to C2 as stated: against a maximum of 11:00 PM given as
    a [Date] of the day before, 3:45 PM is reported as after the maximum,
    although its time of day lies before that of the bound. *)
Lemma date_bound_is_compared_with_its_day :
  maxValue lateBound = DateV (mkJSDate 2024 0 30 23 0 0 0)
  /\ parseDate lateBound (formattedCandidate lateBound (Str "3:45"))
     = DateV (at_ 15 45 0)
  /\ timeOfDay (at_ 15 45 0) < timeOfDay (mkJSDate 2024 0 30 23 0 0 0)
  /\ getErrors lateBound (Str "3:45")
     = Normal ["The time in this field must be equal to or before 11:00PM"].
Proof. repeat split; reflexivity. Qed.

(** The other way round, against a minimum of 9:00 AM given as a [Date] of
    the day after, 3:45 PM is reported as before the minimum. *)
Example date_bound_of_tomorrow :
  getErrors (setMinValue field (DateV (mkJSDate 2024 1 1 9 0 0 0))) (Str "3:45")
  = Normal ["The time in this field must be equal to or after 09:00AM"].
Proof. reflexivity. Qed.

Example getErrors_both_bounds :
  getErrors bounded (Str "3:45")
  = Normal ["The time in this field must be equal to or after 04:00PM";
            "The time in this field must be equal to or before 02:00PM"].
Proof. reflexivity. Qed.

Example getErrors_within_bounds :
  getErrors (setMaxValue (setMinValue field (Str "2:00")) (Str "4:00")) (Str "3:45")
  = Normal [].
Proof. reflexivity. Qed.

(** Counterexample to C3 as stated: the blank text of an empty field does
    not parse to a time, and yet no "invalid format" error is reported for
    it. *)
Lemma blank_text_is_not_reported :
  formattedCandidate field (Str "") = Str ""
  /\ truthy (parseDate field (Str "")) = false
  /\ getErrors field (Str "") = Normal []
  /\ ~ (exists e, getErrors field (Str "")
                  = Normal (Text_getErrors field (Str "") ++ [e])%list).
Proof.
  repeat (split; [reflexivity|]). intros [e H]. discriminate H.
Qed.

(** Witness of C3, amended: the text "3:75". *)
Lemma getErrors_reports_invalid_format_holds :
  formattedCandidate field (Str "3:75") = Str "3:75"
  /\ "3:75" <> ""
  /\ truthy (parseDate field (Str "3:75")) = false
  /\ getErrors field (Str "3:75")
     = Normal ["3:75 PM is not a valid time - it must be in the format undefined"].
Proof.
  split; [reflexivity|]. split; [discriminate|]. split; [reflexivity|].
  exact (getErrors_reports_invalid_format field (Str "3:75") "3:75"
           eq_refl ltac:(discriminate) eq_refl).
Defined.

Example getErrors_invalid_after_init :
  getErrors (set_meridiemValue (Some "PM") (initComponent defaults)) (Str "3:75")
  = Normal ["3:75 PM is not a valid time - it must be in the format HH:MM AM/PM"].
Proof. reflexivity. Qed.


(** [clearDate] itself misses the current day when a setter runs past the
    end of a month: 10 February 2023, cleared on 31 January 2024, ends on
    3 January. *)
Example clearDate_overflow :
  transformOriginalValue field (DateV (mkJSDate 2023 1 10 9 0 30 0))
  = DateV (mkJSDate 2024 0 3 9 0 0 0).
Proof. reflexivity. Qed.

(** In a zone with daylight saving, [clearDate] changes the hour of a time
    that the current day skips: on 10 March 2024 in New York, 2:30 of
    another day becomes 3:30. *)
Example clearDate_in_gap :
  @transformOriginalValue (hostIn newYork (mkJSDate 2024 2 10 9 0 0 0)) field
    (DateV (mkJSDate 2024 2 5 2 30 0 0))
  = DateV (mkJSDate 2024 2 10 3 30 0 0).
Proof. reflexivity. Qed.

(** Typed on that day, 2:30 AM is read as 3:30 AM. *)
Example parseDate_in_gap :
  @parseDate (hostIn newYork (mkJSDate 2024 2 10 9 0 0 0))
    (set_meridiemValue (Some "AM") defaults) (Str "2:30")
  = DateV (mkJSDate 2024 2 10 3 30 0 0).
Proof. reflexivity. Qed.

(** In a zone that skips a day, [clearDate] misses the current day although
    no setter runs past the end of a month: 5 December 2011, cleared in Apia
    on 30 January 2012, passes over 30 December 2011 and ends on
    31 January. *)
Example clearDate_over_skipped_day :
  @clearFits (hostIn apia (mkJSDate 2012 0 30 9 0 0 0)) (mkJSDate 2011 11 5 10 0 0 0)
  = true
  /\ @transformOriginalValue (hostIn apia (mkJSDate 2012 0 30 9 0 0 0)) field
       (DateV (mkJSDate 2011 11 5 10 0 0 0))
     = DateV (mkJSDate 2012 0 31 10 0 0 0).
Proof. split; reflexivity. Qed.

Lemma sample_keeps_day : ZoneKeepsDay.
Proof. intros t. reflexivity. Qed.

Lemma sample_no_gap (h i : Z) : NoGapAt h i.
Proof. intros t _ _. reflexivity. Qed.




Example onSelect_AM :
  exists me',
    onSelect (typed "3:45") "AM" = Normal (me', [SelectEvent (DateV (at_ 3 45 0))])
    /\ rawValue me' = "03:45"
    /\ meridiemValue me' = Some "AM"
    /\ getValue me' = DateV (at_ 3 45 0).
Proof. eexists. repeat split; reflexivity. Qed.



(** Counterexample to C7 as stated: for the empty string and for
    [undefined], [parseDate] returns the input, not [null]. *)
Lemma parseDate_blank_is_not_null :
  parseDate field (Str "") = Str ""
  /\ parseDate field (Str "") <> Null
  /\ parseDate field Undefined = Undefined
  /\ parseDate field Undefined <> Null.
Proof. repeat split; (reflexivity || discriminate). Qed.

(** Witness of C7, amended: the empty string. *)
Lemma falsy_input_is_not_parsed_holds :
  truthy (Str "") = false
  /\ parseDate field (Str "") = Str ""
  /\ truthy (parseDate field (Str "")) = false
  /\ rawToValue field (Str "") = Null
  /\ (rawValue field = "" ->
      getErrors field (Str "") = Normal (Text_getErrors field (Str "")))
  /\ (isBound (minValue field) = true -> isBound (maxValue field) = true ->
      exists errors, getErrors field (Str "") = Normal errors).
Proof.
  split; [reflexivity|].
  exact (falsy_input_is_not_parsed field (Str "") eq_refl).
Defined.

(** Witness of C8: a new field is given no value at 14:30. *)
Lemma setValue_defaults_meridiem_from_clock_holds :
  truthyStr (meridiemValue defaults) = false
  /\ valueToRaw defaults Undefined = Undefined
  /\ meridiemValue (setValue defaults Undefined) = Some "PM".
Proof.
  split; [reflexivity|]. split; [reflexivity|].
  exact (setValue_defaults_meridiem_from_clock defaults Undefined eq_refl
           ltac:(intros r H; discriminate H)).
Defined.

(** Witness of C10: the text "3:75" parses under no format. *)
Lemma rawToValue_keeps_unparsed_text_holds :
  "3:75" <> ""
  /\ (forall fmt, In fmt (format field :: fallbackFormats field) ->
                  ExtDate_parse ("3:75" ++ toStr (meridiemValue field)) fmt
                    (useStrict field) = None)
  /\ rawToValue field (Str "3:75") = Str "3:75"
  /\ rawToValue field (Str "3:75") <> Null
  /\ (forall v, rawToValue field v = Null -> truthy v = false).
Proof.
  assert (Hfail : forall fmt, In fmt (format field :: fallbackFormats field) ->
                  ExtDate_parse ("3:75" ++ toStr (meridiemValue field)) fmt
                    (useStrict field) = None).
  { intros fmt Hin. simpl in Hin.
    repeat (destruct Hin as [<- | Hin]; [reflexivity|]). destruct Hin. }
  split; [discriminate|]. split; [exact Hfail|].
  exact (rawToValue_keeps_unparsed_text field "3:75" ltac:(discriminate) Hfail).
Defined.

End Examples.

(** * Further properties of the component *)

Section MoreProperties.

Context {host : Host}.

Lemma withDay_clock (h i : Z) (ymd : Z * Z * Z) (t : JSDate) :
  NoGapAt h i -> getHours t = h -> getMinutes t = i ->
  clock (withDay ymd t) = clock t.
Proof.
  intros Hg Hh Hi. destruct ymd as [[y m] d]. unfold withDay.
  etransitivity; [apply Hg; assumption|reflexivity].
Qed.

Lemma clock_fields (a b : JSDate) :
  clock a = clock b ->
  getHours a = getHours b /\ getMinutes a = getMinutes b
  /\ getSeconds a = getSeconds b /\ getMilliseconds a = getMilliseconds b.
Proof. unfold clock. intros E. injection E as -> -> -> ->. auto. Qed.

(** X1.  In a zone that skips the hour and minute of a date on no day,
    [clearDate] does not change the hour, the minute or the milliseconds of
    the date, whatever the day it ends on; the seconds are kept when seconds
    are captured and set to 0 otherwise.  (In a gap of the zone the engine
    moves the time on, as in [Examples.clearDate_in_gap].) *)
Theorem clearDate_keeps_time_of_day (me : Field) (d : JSDate) :
  NoGapAt (getHours d) (getMinutes d) ->
  exists d',
    clearDate me (DateV d) = DateV d'
    /\ getHours d' = getHours d
    /\ getMinutes d' = getMinutes d
    /\ getMilliseconds d' = getMilliseconds d
    /\ getSeconds d' = (if captureSeconds me then getSeconds d else 0).
Proof.
  intros Hg. unfold clearDate, setDate, setMonth, setFullYear.
  set (d1 := withDay _ d).
  assert (H1 : clock d1 = clock d) by (apply (withDay_clock _ _ _ _ Hg); reflexivity).
  apply clock_fields in H1. destruct H1 as (Hh1 & Hi1 & Hs1 & Hms1).
  set (d2 := withDay _ d1).
  assert (H2 : clock d2 = clock d1) by (apply (withDay_clock _ _ _ _ Hg); assumption).
  apply clock_fields in H2. destruct H2 as (Hh2 & Hi2 & Hs2 & Hms2).
  set (d3 := withDay _ d2).
  assert (H3 : clock d3 = clock d2)
    by (apply (withDay_clock _ _ _ _ Hg); congruence).
  apply clock_fields in H3. destruct H3 as (Hh3 & Hi3 & Hs3 & Hms3).
  eexists. split; [reflexivity|].
  destruct (captureSeconds me); cbn [negb].
  - repeat split; congruence.
  - unfold setSeconds.
    match goal with
    | |- context [localTime ?t] =>
        assert (H4 : clock (localTime t) = clock t)
          by (apply Hg; cbn [getHours getMinutes]; congruence);
        apply clock_fields in H4; cbn [getHours getMinutes getSeconds getMilliseconds] in H4;
        destruct H4 as (Hh4 & Hi4 & Hs4 & Hms4)
    end.
    repeat split; congruence.
Qed.

(** X2.  When the day of the month of the clock does not exist in the month
    of the date being cleared, [clearDate] does not reach the current day:
    [setDate] carries into the next month, and the result, in a zone that
    keeps the day, is the day (today's day minus the length of that month)
    of the current month and year. *)
Theorem clearDate_misses_day_on_overflow (me : Field) (d : JSDate) :
  validDay today = true ->
  ZoneKeepsDay ->
  getDate today > daysInMonth (getFullYear d) (getMonth d) ->
  exists d',
    clearDate me (DateV d) = DateV d'
    /\ datePortion d'
       = (getFullYear today, getMonth today,
          getDate today - daysInMonth (getFullYear d) (getMonth d))
    /\ datePortion d' <> datePortion today.
Proof.
  intros Hv Hz Hover. apply ExtJSFacts.validDay_spec in Hv.
  destruct Hv as (Hm & Hd).
  remember (getFullYear d) as y eqn:Ey. remember (getMonth d) as m eqn:Em.
  remember (getDate today) as td eqn:Etd.
  assert (Hdim : forall y' m', 28 <= daysInMonth y' m' <= 31).
  { intros y' m'. unfold daysInMonth.
    destruct (m' =? 1); [destruct (isLeapYear y'); lia|].
    destruct ((m' =? 3) || (m' =? 5) || (m' =? 8) || (m' =? 10)); lia. }
  assert (Hm11 : (m =? 11) = false).
  { destruct (Z.eqb_spec m 11) as [E|]; [|reflexivity].
    exfalso. assert (daysInMonth y m = 31) by (rewrite E; reflexivity).
    pose proof (Hdim (getFullYear today) (getMonth today)). lia. }
  pose proof (Hdim y m) as B1.
  pose proof (Hdim (getFullYear today) (getMonth today)) as B2.
  assert (E1 : makeDay y m td = (y, m + 1, td - daysInMonth y m)).
  { unfold makeDay.
    destruct (Z.to_nat td) as [|[|k]] eqn:Ek; try lia.
    cbn [carryDays].
    replace (td >? daysInMonth y m) with true by (symmetry; apply Z.gtb_lt; lia).
    rewrite Hm11.
    pose proof (Hdim y (m + 1)).
    replace (td - daysInMonth y m >? daysInMonth y (m + 1)) with false; [reflexivity|].
    symmetry. destruct (Z.gtb_spec (td - daysInMonth y m) (daysInMonth y (m + 1)));
      [lia|reflexivity]. }
  assert (P1 : datePortion (setDate td d) = (y, m + 1, td - daysInMonth y m)).
  { unfold setDate. rewrite <- Ey, <- Em, E1. now apply withDay_day. }
  set (d1 := setDate td d) in *.
  unfold datePortion in P1. injection P1 as Ey1 Em1 Ed1.
  pose proof (Hdim y (getMonth today)).
  assert (P2 : datePortion (setMonth (getMonth today) d1)
               = (y, getMonth today, td - daysInMonth y m)).
  { unfold setMonth. rewrite Ey1, Ed1.
    rewrite (ExtJSFacts.makeDay_fits y (getMonth today) (td - daysInMonth y m)) by lia.
    now apply withDay_day. }
  set (d2 := setMonth (getMonth today) d1) in *.
  unfold datePortion in P2. injection P2 as Ey2 Em2 Ed2.
  assert (P3 : datePortion (setFullYear (getFullYear today) d2)
               = (getFullYear today, getMonth today, td - daysInMonth y m)).
  { unfold setFullYear. rewrite Em2, Ed2.
    rewrite (ExtJSFacts.makeDay_fits (getFullYear today) (getMonth today)
               (td - daysInMonth y m)) by lia.
    now apply withDay_day. }
  set (d3 := setFullYear (getFullYear today) d2) in *.
  assert (P : datePortion (if negb (captureSeconds me) then setSeconds 0 d3 else d3)
              = (getFullYear today, getMonth today, td - daysInMonth y m)).
  { destruct (negb (captureSeconds me)); [|exact P3].
    rewrite (setSeconds_day _ _ Hz). exact P3. }
  exists (if negb (captureSeconds me) then setSeconds 0 d3 else d3).
  split; [unfold clearDate, d3, d2, d1; rewrite Etd; reflexivity|].
  split; [exact P|].
  rewrite P. unfold datePortion. rewrite <- Etd. intros E. injection E. lia.
Qed.

Lemma withDay_same_day (t : JSDate) :
  withDay (datePortion t) t = localTime t.
Proof. destruct t. reflexivity. Qed.

(** X22.  On a date of the current month and year, [clearDate] gives the
    reading of the zone for the current day at the time of day of the date:
    that time itself when it exists on the current day, and the time past
    the gap when the zone skips it (2:30 becomes 3:30 on the day daylight
    saving begins at 2:00); the seconds are then set to 0 unless they are
    captured.  The zone is one that keeps the day, and that shows a time it
    has shown as it is. *)
Theorem clearDate_shows_zone_time (me : Field) (d : JSDate) :
  validDay today = true ->
  ZoneKeepsDay ->
  (forall t, localTime (localTime t) = localTime t) ->
  getFullYear d = getFullYear today ->
  getMonth d = getMonth today ->
  clearDate me (DateV d)
  = DateV (let shown :=
             localTime
               (mkJSDate (getFullYear today) (getMonth today) (getDate today)
                  (getHours d) (getMinutes d) (getSeconds d) (getMilliseconds d)) in
           if captureSeconds me then shown else setSeconds 0 shown).
Proof.
  intros Hv Hz Hidem Hy Hm. apply ExtJSFacts.validDay_spec in Hv.
  assert (Hstep : forall t, datePortion t = datePortion today ->
            setMonth (getMonth today) t = localTime t
            /\ setFullYear (getFullYear today) t = localTime t).
  { intros t Ht. pose proof Ht as Ht'. unfold datePortion in Ht'.
    injection Ht' as Ey Em Edd.
    unfold setMonth, setFullYear. rewrite Ey, Em, Edd.
    rewrite (ExtJSFacts.makeDay_fits _ _ _ (proj2 (proj2 Hv))).
    change (getFullYear today, getMonth today, getDate today)
      with (datePortion today).
    rewrite <- Ht. rewrite withDay_same_day. auto. }
  unfold clearDate. cbv zeta.
  assert (E1 : setDate (getDate today) d
               = localTime
                   (mkJSDate (getFullYear today) (getMonth today) (getDate today)
                      (getHours d) (getMinutes d) (getSeconds d)
                      (getMilliseconds d))).
  { unfold setDate. rewrite Hy, Hm.
    rewrite (ExtJSFacts.makeDay_fits _ _ _ (proj2 (proj2 Hv))). reflexivity. }
  rewrite E1.
  set (shown := localTime _).
  assert (Hshown : datePortion shown = datePortion today)
    by (unfold shown; rewrite Hz; reflexivity).
  rewrite (proj1 (Hstep _ Hshown)). unfold shown at 1 2. rewrite Hidem. fold shown.
  rewrite (proj2 (Hstep _ Hshown)). unfold shown at 1 2. rewrite Hidem. fold shown.
  now destruct (captureSeconds me).
Qed.

(** X3.  [parseDate] is idempotent: parsing what it returned gives the same
    value again (a [Date] and a falsy value are handed back, and a string
    becomes a [Date] or [null]). *)
Theorem parseDate_idempotent (me : Field) (v : Value) :
  parseDate me (parseDate me v) = parseDate me v.
Proof.
  destruct v as [| |s|d]; try reflexivity.
  destruct (String.eqb_spec s "") as [->|Hs]; [reflexivity|].
  destruct (parseDate_Str_cases me s Hs) as [[d ->] | ->]; reflexivity.
Qed.

Lemma parseDate_cases (me : Field) (v : Value) :
  (exists d, parseDate me v = DateV d) \/ truthy (parseDate me v) = false.
Proof.
  destruct v as [| |s|d]; [now right|now right| |left; eexists; reflexivity].
  destruct (String.eqb_spec s "") as [->|Hs]; [now right|].
  destruct (parseDate_Str_cases me s Hs) as [[d E] | E]; [left; eauto|].
  right. now rewrite E.
Qed.

Lemma rawToValue_date (me : Field) (v : Value) (d : JSDate) :
  parseDate me v = DateV d -> rawToValue me v = DateV d.
Proof. intros E. unfold rawToValue, jsOr. now rewrite E. Qed.

Lemma rawToValue_not_date (me : Field) (v : Value) :
  truthy (parseDate me v) = false ->
  rawToValue me v = if truthy v then v else Null.
Proof.
  intros E. unfold rawToValue, jsOr. rewrite E. reflexivity.
Qed.

(** X4.  [rawToValue] normalises: its result is [null] or truthy (a [Date]
    or the non-empty raw text), never [undefined] or the empty string, and
    applying it again changes nothing. *)
Theorem rawToValue_normalises (me : Field) (v : Value) :
  (rawToValue me v = Null \/ truthy (rawToValue me v) = true)
  /\ rawToValue me (rawToValue me v) = rawToValue me v.
Proof.
  destruct (parseDate_cases me v) as [[d E] | E].
  - rewrite (rawToValue_date me v d E). split; [now right|reflexivity].
  - rewrite (rawToValue_not_date me v E).
    destruct (truthy v) eqn:Ev.
    + split; [now right|]. rewrite (rawToValue_not_date me v E). now rewrite Ev.
    + split; [now left|reflexivity].
Qed.

Lemma checkBound_extends (bound : Value) (violates : Z -> bool) (text : string)
      (me : Field) (errors errors' : list string) :
  checkBound bound violates text me errors = Normal errors' ->
  exists own, errors' = (errors ++ own)%list /\ (List.length own <= 1)%nat.
Proof.
  unfold checkBound. destruct bound as [| |s|b].
  - intros H. injection H as <-. exists []. rewrite app_nil_r. auto.
  - intros H. injection H as <-. exists []. rewrite app_nil_r. auto.
  - destruct (truthy (Str s)); [discriminate|].
    intros H. injection H as <-. exists []. rewrite app_nil_r. auto.
  - destruct (violates (getTime b)); intros H; injection H as <-.
    + eexists. split; [reflexivity|]. simpl. lia.
    + exists []. rewrite app_nil_r. auto.
Qed.

(** X5.  Whenever [getErrors] completes, its result is the errors of the
    parent class, in their order, followed by at most two errors of the
    component's own: no error of the parent is dropped or reordered. *)
Theorem getErrors_extends_parent_errors (me : Field) (v : Value)
        (errors : list string) :
  getErrors me v = Normal errors ->
  exists own,
    errors = (Text_getErrors me v ++ own)%list /\ (List.length own <= 2)%nat.
Proof.
  intros H. destruct (formattedCandidate_Str me v) as [fv Hfv].
  destruct (String.eqb_spec fv "") as [->|Hne].
  - rewrite (getErrors_empty me v Hfv) in H. injection H as <-.
    exists []. rewrite app_nil_r. auto.
  - rewrite (getErrors_Str me v fv Hfv Hne) in H.
    destruct (parseDate me (Str fv)) as [| |q|p].
    + injection H as <-. eexists. split; [reflexivity|]. simpl. lia.
    + injection H as <-. eexists. split; [reflexivity|]. simpl. lia.
    + destruct (truthy (Str q)); [discriminate|].
      injection H as <-. eexists. split; [reflexivity|]. simpl. lia.
    + unfold checkBounds in H.
      destruct (checkBound (minValue me) _ (minText me) me (Text_getErrors me v))
        as [e1|] eqn:E1; [|discriminate].
      destruct (checkBound_extends _ _ _ _ _ _ E1) as (o1 & -> & L1).
      destruct (checkBound_extends _ _ _ _ _ _ H) as (o2 & -> & L2).
      exists (o1 ++ o2)%list. rewrite app_assoc. split; [reflexivity|].
      rewrite length_app. lia.
Qed.

(** The operations other than the two setters leave the bounds alone. *)
Lemma setValue_bounds (me : Field) (v : Value) :
  minValue (setValue me v) = minValue me /\ maxValue (setValue me v) = maxValue me.
Proof.
  unfold setValue.
  destruct (valueToRaw me v) as [| |r|d]; cbn [truthyStr];
    repeat match goal with
    | |- context [if ?c then _ else _] => destruct c
    end; split; reflexivity.
Qed.

Lemma onSelect_bounds (me me' : Field) (meridiem : string) (events : list Event) :
  onSelect me meridiem = Normal (me', events) ->
  minValue me' = minValue me /\ maxValue me' = maxValue me.
Proof.
  unfold onSelect. destruct (truthy (getValue me)).
  - destruct (match getValue me with
              | DateV d => Normal (ExtDate_format d "his")
              | _ => ExtDate_formatOther (getValue me) "his"
              end) as [text|]; [|discriminate].
    intros H. injection H as <- _.
    destruct (setValue_bounds (setMeridiemValue (Some meridiem) me)
                (match ExtDate_parse (text ++ meridiem) "hisA" None with
                 | Some d => DateV d
                 | None => Null
                 end)) as [-> ->].
    split; reflexivity.
  - intros H. injection H as <- _. split; reflexivity.
Qed.

Lemma Reachable_bounds (me : Field) :
  Reachable me -> isBound (minValue me) = true /\ isBound (maxValue me) = true.
Proof.
  induction 1 as [me|me raw _ IH|me v _ IH|me m _ IH|me v _ IH|me v _ IH
                  |me meridiem me' events _ IH Hsel|me _ IH].
  - apply initComponent_isBound.
  - exact IH.
  - destruct (setValue_bounds me v) as [-> ->]. exact IH.
  - exact IH.
  - split; [apply setMinValue_isBound|exact (proj2 IH)].
  - split; [exact (proj1 IH)|apply setMaxValue_isBound].
  - destruct (onSelect_bounds _ _ _ _ Hsel) as [-> ->]. exact IH.
  - unfold beforeBlur. destruct (truthy (parseDate me (Str (rawValue me)))).
    + destruct (setValue_bounds me (parseDate me (Str (rawValue me)))) as [-> ->].
      exact IH.
    + exact IH.
Qed.

(** X6.  On every field a program can hold (built by [initComponent] and
    driven through [setValue], [setMinValue], [setMaxValue], [onSelect],
    [beforeBlur] and typing), the bounds are a [Date] or falsy, and so
    [getErrors] never raises, whatever value it is given. *)
Theorem getErrors_never_raises (me : Field) (v : Value) :
  Reachable me ->
  isBound (minValue me) = true
  /\ isBound (maxValue me) = true
  /\ exists errors, getErrors me v = Normal errors.
Proof.
  intros H. destruct (Reachable_bounds me H) as [Hmin Hmax].
  repeat split; auto. now apply getErrors_completes.
Qed.

(** X7.  After [setValue], whatever the value, the field holds a
    meridiem: a non-empty text, taken from the value, kept from before, or
    set from the clock. *)
Theorem setValue_establishes_meridiem (me : Field) (v : Value) :
  truthyStr (meridiemValue (setValue me v)) = true.
Proof.
  unfold setValue.
  match goal with
  | |- context [if negb (truthyStr (meridiemValue ?m)) then _ else _] =>
      destruct (truthyStr (meridiemValue m)) eqn:E
  end; cbn [negb].
  - exact E.
  - cbn [meridiemValue set_meridiemValue]. now destruct (getHours today >=? 12).
Qed.

Lemma setValue_unparsed (me : Field) (v : Value) :
  truthy (parseDate me v) = false ->
  rawValue (setValue me v) = ""
  /\ (truthyStr (meridiemValue me) = true ->
      meridiemValue (setValue me v) = meridiemValue me).
Proof.
  intros Hp. unfold setValue, valueToRaw.
  destruct (parseDate me v) as [| |s|d]; try discriminate; cbn [formatDate].
  - split; [|intros Hm]; cbn [truthyStr setRawValue meridiemValue set_rawValue];
      [|rewrite Hm]; cbn; try reflexivity.
    now destruct (negb (truthyStr (meridiemValue me))).
  - split; [|intros Hm]; cbn [truthyStr setRawValue meridiemValue set_rawValue];
      [|rewrite Hm]; cbn; try reflexivity.
    now destruct (negb (truthyStr (meridiemValue me))).
  - assert (Es : s = "").
    { destruct (String.eqb_spec s "") as [E|E]; [exact E|].
      apply truthy_Str in E. congruence. }
    subst s.
    split; [|intros Hm]; cbn; [|rewrite Hm]; cbn; try reflexivity.
    now destruct (negb (truthyStr (meridiemValue me))).
Qed.

(** X8.  When the value given to [setValue] does not parse to a [Date] (a
    falsy value, or a string no format accepts), the text of the field is
    emptied; a meridiem the field already holds is kept. *)
Theorem setValue_unparsed_empties_text (me : Field) (v : Value) :
  truthy (parseDate me v) = false ->
  rawValue (setValue me v) = ""
  /\ (truthyStr (meridiemValue me) = true ->
      meridiemValue (setValue me v) = meridiemValue me).
Proof. exact (setValue_unparsed me v). Qed.

Lemma getValue_blank (me : Field) :
  rawValue me = "" -> getValue me = Null.
Proof.
  intros E. unfold getValue, processRawValue. rewrite E. reflexivity.
Qed.

Lemma getValue_text (me : Field) :
  rawValue me <> "" -> truthy (getValue me) = true.
Proof.
  intros E. unfold getValue, processRawValue.
  destruct (parseDate_cases me (Str (rawValue me))) as [[d H] | H].
  - now rewrite (rawToValue_date _ _ d H).
  - rewrite (rawToValue_not_date _ _ H).
    apply truthy_Str in E. now rewrite E.
Qed.

(** X9.  [onSelect] fires the 'select' event exactly when the field holds
    text and the call completes.  On an empty field it only stores the
    selected meridiem and fires nothing.  With a text that parses it always
    completes and fires the event once.  With a text that does not parse,
    the framework is asked to format the text itself: when it answers, the
    event is fired once, and when it raises, [onSelect] raises and nothing
    is fired. *)
Theorem onSelect_fires_iff_text (me : Field) (meridiem : string) :
  (rawValue me = "" ->
   onSelect me meridiem = Normal (setMeridiemValue (Some meridiem) me, []))
  /\ (forall d, getValue me = DateV d ->
      exists me' newValue,
        onSelect me meridiem = Normal (me', [SelectEvent newValue]))
  /\ (rawValue me <> "" ->
      (exists me' newValue,
          onSelect me meridiem = Normal (me', [SelectEvent newValue]))
      \/ (getValue me = Str (rawValue me)
          /\ ExtDate_formatOther (Str (rawValue me)) "his" = Throw
          /\ onSelect me meridiem = Throw)).
Proof.
  split; [|split].
  - intros E. unfold onSelect. rewrite (getValue_blank me E). reflexivity.
  - intros d E. unfold onSelect. rewrite E. cbn [truthy]. eauto.
  - intros E. unfold onSelect. rewrite (getValue_text me E).
    destruct (parseDate_cases me (Str (rawValue me))) as [[d H] | H].
    + left. unfold getValue, processRawValue. rewrite (rawToValue_date _ _ d H). eauto.
    + assert (Hv : getValue me = Str (rawValue me)).
      { unfold getValue, processRawValue. rewrite (rawToValue_not_date _ _ H).
        apply truthy_Str in E. now rewrite E. }
      rewrite Hv.
      destruct (ExtDate_formatOther (Str (rawValue me)) "his") as [text|] eqn:Ef.
      * left. eauto.
      * right. auto.
Qed.

(** X10.  When the text of the field does not parse and the framework
    formats it as a text that does not parse under [hisA] either (as when
    it formats what is not a [Date] as the empty string), [onSelect] erases
    the text of the field: it fires 'select' with no date and leaves the
    field empty, with the selected meridiem. *)
Theorem onSelect_erases_unparsed_text (me : Field) (meridiem text : string) :
  rawValue me <> "" ->
  meridiem <> "" ->
  truthy (parseDate me (Str (rawValue me))) = false ->
  ExtDate_formatOther (Str (rawValue me)) "his" = Normal text ->
  ExtDate_parse (text ++ meridiem) "hisA" None = None ->
  exists me',
    onSelect me meridiem = Normal (me', [SelectEvent Null])
    /\ rawValue me' = ""
    /\ meridiemValue me' = Some meridiem.
Proof.
  intros Hraw Hm Hp Hf Hparse.
  assert (Hv : getValue me = Str (rawValue me)).
  { unfold getValue, processRawValue. rewrite (rawToValue_not_date _ _ Hp).
    apply truthy_Str in Hraw. now rewrite Hraw. }
  unfold onSelect. rewrite Hv. apply truthy_Str in Hraw. rewrite Hraw.
  rewrite Hf, Hparse.
  eexists. split; [reflexivity|].
  unfold setValue, valueToRaw. cbn.
  apply truthy_Str in Hm. simpl in Hm. rewrite Hm. cbn. auto.
Qed.

Lemma splitBar_not_nil (s : string) : splitBar s <> [].
Proof.
  destruct s as [|c s]; simpl; [discriminate|].
  destruct (Ascii.eqb c "|"); [discriminate|].
  destruct (splitBar s); discriminate.
Qed.

(** Splitting distributes over a concatenation at a bar. *)
Lemma splitBar_append (a b : string) :
  splitBar (a ++ String "|" b) = (splitBar a ++ splitBar b)%list.
Proof.
  induction a as [|c a IH].
  - reflexivity.
  - simpl append. cbn [splitBar]. rewrite IH.
    destruct (Ascii.eqb c "|"); [reflexivity|].
    pose proof (splitBar_not_nil a) as Hn.
    destruct (splitBar a) as [|w ws]; [congruence|]. reflexivity.
Qed.

Lemma append_not_empty (a : string) (c : ascii) (b : string) :
  String.eqb (a ++ String c b) "" = false.
Proof. destruct a; reflexivity. Qed.

(** X11.  [initComponent] keeps the fallback formats in their order.  When
    seconds are captured it makes [captureSecondsFormat] the format, sets the
    maximum length to 8 and appends the eight formats with seconds after the
    configured fallbacks, so that these keep their precedence; otherwise the
    formats are untouched and the maximum length is 5. *)
Theorem initComponent_formats (me : Field) :
  altFormatsArray me = None ->
  if captureSeconds me
  then format (initComponent me) = captureSecondsFormat me
       /\ fallbackFormats (initComponent me)
          = (splitBar (altFormats me) ++ secondsFormats)%list
       /\ maxLength (initComponent me) = Some 8
  else format (initComponent me) = format me
       /\ fallbackFormats (initComponent me) = fallbackFormats me
       /\ maxLength (initComponent me) = Some 5.
Proof.
  intros Harr.
  assert (E : forall me0 : Field,
             altFormatsArray me0 = None ->
             captureSeconds me0 = captureSeconds me ->
             format me0 = format me -> altFormats me0 = altFormats me ->
             captureSecondsFormat me0 = captureSecondsFormat me ->
             let me1 :=
               if captureSeconds me0
               then set_config (captureSecondsFormat me0)
                      (altFormats me0 ++ "|h:i:sA|hi:sA|h:isA|gisA|hisA|g:i:sA|gi:sA|g:isA")
                      (Some 8) (invalidTextFormat me0) me0
               else set_config (format me0) (altFormats me0) (Some 5)
                      (invalidTextFormat me0) me0 in
             let me2 :=
               match invalidTextFormat me1 with
               | Some _ => me1
               | None =>
                   set_config (format me1) (altFormats me1) (maxLength me1)
                     (Some (if captureSeconds me1 then "HH:MM:SS AM/PM"
                            else "HH:MM AM/PM")) me1
               end in
             if captureSeconds me
             then format me2 = captureSecondsFormat me
                  /\ fallbackFormats me2
                     = (splitBar (altFormats me) ++ secondsFormats)%list
                  /\ maxLength me2 = Some 8
             else format me2 = format me
                  /\ fallbackFormats me2 = fallbackFormats me
                  /\ maxLength me2 = Some 5).
  { intros me0 Ha Hc Hf Halt Hcsf. cbv zeta. rewrite Hc.
    destruct (captureSeconds me) eqn:Ecap.
    - destruct (invalidTextFormat me0); cbn; unfold fallbackFormats; cbn;
        rewrite Ha, Halt, Hcsf, append_not_empty, splitBar_append;
        repeat split; reflexivity.
    - destruct (invalidTextFormat me0); cbn; unfold fallbackFormats; cbn;
        rewrite Ha, Halt, Hf, Harr; repeat split; reflexivity. }
  unfold initComponent.
  destruct (isString (minValue me)), (isString (maxValue me));
    apply E; reflexivity || assumption.
Qed.


End MoreProperties.

(** * More about the reference host *)

Module ExtJSMoreFacts.

Import ExtJS ExtJSAux ExtJSFacts.

Lemma lower_a (c : ascii) : lower c = "a"%char -> c = "a"%char \/ c = "A"%char.
Proof.
  destruct c as [[] [] [] [] [] [] [] []]; vm_compute; intros H;
    try discriminate H; auto.
Qed.

Lemma lower_p (c : ascii) : lower c = "p"%char -> c = "p"%char \/ c = "P"%char.
Proof.
  destruct c as [[] [] [] [] [] [] [] []]; vm_compute; intros H;
    try discriminate H; auto.
Qed.

Lemma lower_m (c : ascii) : lower c = "m"%char -> c = "m"%char \/ c = "M"%char.
Proof.
  destruct c as [[] [] [] [] [] [] [] []]; vm_compute; intros H;
    try discriminate H; auto.
Qed.

(** What a meridiem code matches is what [stripMeridiem] strips. *)
Lemma alternatives_meridiem_text (t : Token) (s m rest : string) :
  isMeridiemCode t = true -> In (m, rest) (alternatives t s) ->
  isMeridiemText m = true.
Proof.
  intros Ht H.
  assert (H' : In (m, rest)
                 (two s (fun a b => (Ascii.eqb (lower a) "a" || Ascii.eqb (lower a) "p")
                                    && Ascii.eqb (lower b) "m"))).
  { destruct t; try discriminate; exact H. }
  apply two_In in H'. destruct H' as (a & b & -> & _ & Hp).
  apply andb_true_iff in Hp. destruct Hp as [Ha Hb].
  apply Ascii.eqb_eq in Hb. apply lower_m in Hb.
  apply orb_true_iff in Ha.
  destruct Ha as [Ha | Ha]; apply Ascii.eqb_eq in Ha;
    [apply lower_a in Ha | apply lower_p in Ha];
    destruct Ha as [-> | ->]; destruct Hb as [-> | ->]; reflexivity.
Qed.

Lemma matchTokens_ends_in_meridiem (toks : list Token) :
  meridiemLast toks = true ->
  forall (s : string) (groups : list (Token * string)),
    matchTokens toks s = Some groups ->
    exists u m, s = u ++ m /\ isMeridiemText m = true.
Proof.
  induction toks as [|t rest IH]; [discriminate|].
  intros Hlast s groups H. cbn [matchTokens] in H.
  apply firstSome_In in H. destruct H as ([m s'] & Hin & H).
  cbv beta iota in H.
  destruct (matchTokens rest s') as [gs|] eqn:E; [|discriminate].
  pose proof (alternatives_split t s m s' Hin) as Hs.
  destruct rest as [|t' rest'].
  - simpl in Hlast, E. destruct s'; [|discriminate].
    exists "", m. split; [|exact (alternatives_meridiem_text t s m "" Hlast Hin)].
    rewrite Hs. clear. induction m as [|c m IHm]; simpl; [reflexivity|].
    now rewrite IHm.
  - simpl in Hlast. apply andb_true_iff in Hlast. destruct Hlast as [_ Hlast].
    destruct (IH Hlast s' gs E) as (u & m' & -> & Hm').
    exists (m ++ u), m'. split; [|exact Hm'].
    rewrite Hs. now rewrite append_assoc.
Qed.

(** Under a format that ends in a meridiem code, only a text that ends in
    a meridiem parses. *)
Lemma parse_ends_in_meridiem (now : JSDate) (input fmt : string)
      (strict : option bool) (d : JSDate) :
  meridiemFormat fmt = true ->
  parse now input fmt strict = Some d ->
  exists u m, input = u ++ m /\ isMeridiemText m = true.
Proof.
  intros Hfmt. unfold parse.
  destruct (matchTokens (tokens false fmt) input) as [groups|] eqn:E; [|discriminate].
  intros _. exact (matchTokens_ends_in_meridiem _ Hfmt _ _ E).
Qed.

Lemma append_undefined_fails (now : JSDate) (s fmt : string) (strict : option bool) :
  meridiemFormat fmt = true ->
  parse now (s ++ "undefined") fmt strict = None.
Proof.
  intros Hfmt.
  destruct (parse now (s ++ "undefined") fmt strict) as [d|] eqn:E; [|reflexivity].
  exfalso.
  destruct (parse_ends_in_meridiem now _ fmt strict d Hfmt E) as (u & m & Hs & Hm).
  destruct m as [|a [|b [|c m]]]; try discriminate.
  assert (Hab : String a (String b EmptyString) = "ed").
  { apply (append_same_suffix u (s ++ "undefin")).
    - rewrite <- Hs, append_assoc. reflexivity.
    - reflexivity. }
  rewrite Hab in Hm. discriminate.
Qed.

Import ExtJSPlain.

Lemma isLetter_lower (a : ascii) : isLetter a = true -> isLetter (lower a) = true.
Proof.
  destruct a as [[] [] [] [] [] [] [] []]; vm_compute; intros H;
    try discriminate H; reflexivity.
Qed.

Lemma lower_not_letter (c : ascii) : isLetter c = false -> lower c = c.
Proof.
  unfold isLetter, lower. intros H. apply orb_false_iff in H.
  destruct H as [-> _]. reflexivity.
Qed.

Lemma digit_not_letter (lo hi c : ascii) :
  (48 <= nat_of_ascii lo)%nat -> (nat_of_ascii hi <= 57)%nat ->
  inRange lo hi c = true -> isLetter c = false.
Proof.
  intros Hlo Hhi H. apply inRange_spec in H.
  unfold isLetter. apply orb_false_iff. split.
  - destruct (inRange "A" "Z" c) eqn:E; [|reflexivity].
    apply inRange_spec in E. change (nat_of_ascii "A") with 65%nat in E. lia.
  - destruct (inRange "a" "z" c) eqn:E; [|reflexivity].
    apply inRange_spec in E. change (nat_of_ascii "a") with 97%nat in E. lia.
Qed.

Lemma is_char_not_letter (x c : ascii) :
  isLetter x = false -> Ascii.eqb c x = true -> isLetter c = false.
Proof. intros H E. apply Ascii.eqb_eq in E. now subst. Qed.

Ltac digit :=
  match goal with
  | H : inRange ?lo ?hi ?c = true |- isLetter ?c = false =>
      apply (digit_not_letter lo hi c); [vm_compute; lia|vm_compute; lia|exact H]
  | H : isDigit ?c = true |- isLetter ?c = false =>
      apply (digit_not_letter "0" "9" c); [vm_compute; lia|vm_compute; lia|exact H]
  | H : Ascii.eqb ?c ?x = true |- isLetter ?c = false =>
      apply (is_char_not_letter x c); [reflexivity|exact H]
  end.

(** What a plain code matches holds no letter. *)
Lemma alternatives_plain (t : Token) (s m rest : string) :
  plainCode t = true -> In (m, rest) (alternatives t s) -> noLetters m = true.
Proof.
  destruct t; try discriminate; intros Ht; simpl alternatives;
    rewrite ?in_app_iff; intros H;
    repeat match goal with
    | H : _ \/ _ |- _ => destruct H
    | H : In _ (two _ _) |- _ =>
        apply two_In in H; destruct H as (a & b & -> & _ & H)
    | H : In _ (one _ _) |- _ =>
        apply one_In in H; destruct H as (a & -> & _ & H)
    end;
    repeat match goal with
    | H : _ && _ = true |- _ => apply andb_true_iff in H; destruct H
    end;
    cbn [noLetters]; rewrite ?andb_true_r;
    repeat (apply andb_true_iff; split); try reflexivity;
    try (apply negb_true_iff; digit).
  (* a literal *)
  apply negb_true_iff. simpl in Ht. apply negb_true_iff in Ht.
  apply Ascii.eqb_eq in H. rewrite (lower_not_letter c Ht) in H.
  destruct (isLetter a) eqn:Ea; [|reflexivity].
  apply isLetter_lower in Ea. rewrite H in Ea. congruence.
Qed.

Lemma noLetters_app (a b : string) :
  noLetters (a ++ b) = noLetters a && noLetters b.
Proof.
  induction a as [|c a IH]; simpl; [reflexivity|].
  now rewrite IH, andb_assoc.
Qed.

Lemma matchTokens_plain (toks : list Token) :
  plainMeridiemLast toks = true ->
  forall (s : string) (groups : list (Token * string)),
    matchTokens toks s = Some groups ->
    exists u m, s = u ++ m /\ noLetters u = true /\ String.length m = 2%nat.
Proof.
  induction toks as [|t rest IH]; [discriminate|].
  intros Hlast s groups H. cbn [matchTokens] in H.
  apply firstSome_In in H. destruct H as ([m s'] & Hin & H).
  cbv beta iota in H.
  destruct (matchTokens rest s') as [gs|] eqn:E; [|discriminate].
  pose proof (alternatives_split t s m s' Hin) as Hs.
  destruct rest as [|t' rest'].
  - simpl in Hlast, E. destruct s'; [|discriminate].
    destruct (alternatives_meridiem t s m "" Hlast Hin) as (a & b & ->).
    exists "", (String a (String b EmptyString)). repeat split. exact Hs.
  - simpl in Hlast. apply andb_true_iff in Hlast. destruct Hlast as [Ht Hlast].
    destruct (IH Hlast s' gs E) as (u & m' & -> & Hu & Hm').
    exists (m ++ u), m'. repeat split; [|now rewrite noLetters_app,
      (alternatives_plain t s m _ Ht Hin), Hu|exact Hm'].
    rewrite Hs. now rewrite append_assoc.
Qed.

Lemma append_cancel_r (a b m : string) : a ++ m = b ++ m -> a = b.
Proof.
  revert b. induction a as [|c a IH]; intros b H.
  - destruct b as [|e b]; [reflexivity|].
    simpl in H. apply (f_equal String.length) in H.
    simpl in H. rewrite length_append in H. lia.
  - destruct b as [|e b].
    + simpl in H. apply (f_equal String.length) in H.
      simpl in H. rewrite length_append in H. lia.
    + simpl in H. injection H as -> H. f_equal. exact (IH b H).
Qed.

(** Under a plain format, a text whose part before the last two
    characters holds a letter does not parse. *)
Lemma parse_plain_fails (now : JSDate) (x m fmt : string) (strict : option bool) :
  plainFormat fmt = true -> String.length m = 2%nat -> noLetters x = false ->
  parse now (x ++ m) fmt strict = None.
Proof.
  intros Hfmt Hm Hx. unfold parse.
  destruct (matchTokens (tokens false fmt) (x ++ m)) as [groups|] eqn:E;
    [|reflexivity].
  exfalso. destruct (matchTokens_plain _ Hfmt _ _ E) as (u & m' & Hs & Hu & Hm').
  assert (Em : m' = m).
  { apply (append_same_suffix u x); [now symmetry|congruence]. }
  subst m'. apply append_cancel_r in Hs. subst u. congruence.
Qed.

End ExtJSMoreFacts.

(** * Further properties on the reference host *)

Section MoreReferenceHost.

Import ExtJS ExtJSAux ExtJSFacts.

Variable now : JSDate.
Variable textErrors : Field -> Value -> list string.
Hypothesis now_valid : validDay now = true.

#[local] Hint Extern 0 Host => exact (refHost now textErrors) : typeclass_instances.





(** X14.  A field that holds no meridiem parses no text: under formats
    that end in the meridiem code, "undefined" is appended to the text, so
    that every non-empty text parses to [null] and stays the raw text as the
    value of the field. *)
Theorem no_meridiem_no_parse (me : Field) (s : string) :
  forallb meridiemFormat (format me :: fallbackFormats me) = true ->
  meridiemValue me = None ->
  s <> "" ->
  parseDate me (Str s) = Null /\ rawToValue me (Str s) = Str s.
Proof.
  intros Hfmts Hm Hs.
  assert (Hp : parseDate me (Str s) = Null).
  { assert (Hall : forall fmt, In fmt (format me :: fallbackFormats me) ->
                     ExtDate_parse (parseInput me s) fmt (useStrict me) = None).
    { intros fmt Hin. rewrite forallb_forall in Hfmts.
      unfold parseInput. rewrite Hm. simpl toStr.
      exact (ExtJSMoreFacts.append_undefined_fails now s fmt (useStrict me)
               (Hfmts fmt Hin)). }
    apply FirstParse_none_iff in Hall.
    now rewrite (parseDate_first me s None Hs Hall). }
  split; [exact Hp|].
  rewrite (rawToValue_not_date me (Str s)) by (now rewrite Hp).
  apply truthy_Str in Hs. now rewrite Hs.
Qed.

(** X15.  A minimum or maximum given as a string in the configuration is
    parsed by [initComponent] before any meridiem is held, unless one is
    configured: under formats that end in the meridiem code it parses to
    [null], and the bound is dropped. *)
Theorem initComponent_drops_string_bounds (me : Field) (s : string) :
  forallb meridiemFormat (format me :: fallbackFormats me) = true ->
  meridiemValue me = None ->
  s <> "" ->
  (minValue me = Str s -> minValue (initComponent me) = Null)
  /\ (maxValue me = Str s -> maxValue (initComponent me) = Null).
Proof.
  intros Hfmts Hm Hs.
  assert (Hp : parseDate me (Str s) = Null).
  { assert (Hall : forall fmt, In fmt (format me :: fallbackFormats me) ->
                     ExtDate_parse (parseInput me s) fmt (useStrict me) = None).
    { intros fmt Hin. rewrite forallb_forall in Hfmts.
      unfold parseInput. rewrite Hm. simpl toStr.
      exact (ExtJSMoreFacts.append_undefined_fails now s fmt (useStrict me)
               (Hfmts fmt Hin)). }
    apply FirstParse_none_iff in Hall.
    now rewrite (parseDate_first me s None Hs Hall). }
  split; intros E.
  - rewrite initComponent_minValue, E. exact Hp.
  - rewrite initComponent_maxValue, E. exact Hp.
Qed.

(** X16.  On blur, a text that parses is replaced by the display text of
    its time: the value of the field and the meridiem stay the same, and a
    second blur changes nothing. *)
Theorem beforeBlur_normalises_text (me : Field) (d : JSDate) :
  ownFormat me ->
  forallb meridiemFormat (format me :: fallbackFormats me) = true ->
  meridiemValue me = Some "AM" \/ meridiemValue me = Some "PM" ->
  parseDate me (Str (rawValue me)) = DateV d ->
  rawValue (beforeBlur me) = displayText me d
  /\ meridiemValue (beforeBlur me) = meridiemValue me
  /\ getValue (beforeBlur me) = DateV d
  /\ beforeBlur (beforeBlur me) = beforeBlur me.
Proof.
  intros Hown Hfmts Hm Hp.
  pose proof (parsed_meridiem_is_current now textErrors now_valid me _ d Hfmts Hm Hp)
    as Hmer.
  destruct (parsed_shape now textErrors now_valid me _ d Hp) as (Hd & Hvt & Hsec).
  assert (Hb : beforeBlur me
               = set_meridiemValue (Some (meridiemOf d))
                   (set_rawValue (displayText me d) me)).
  { unfold beforeBlur. rewrite Hp. cbn [truthy].
    exact (setValue_date now textErrors me d Hown). }
  assert (Hre : parseDate (beforeBlur me) (Str (displayText me d)) = DateV d).
  { rewrite Hb.
    apply (reparse_displayText now textErrors now_valid
             (set_meridiemValue (Some (meridiemOf d))
                (set_rawValue (displayText me d) me)) d); auto.
    - rewrite Hd. reflexivity.
    - rewrite Hd. reflexivity. }
  split; [now rewrite Hb|]. split; [now rewrite Hb, Hmer|].
  split.
  - unfold getValue, processRawValue. apply rawToValue_date.
    rewrite Hb at 2. cbn [rawValue set_meridiemValue set_rawValue]. exact Hre.
  - assert (Hraw : rawValue (beforeBlur me) = displayText me d) by now rewrite Hb.
    unfold beforeBlur at 1. rewrite Hraw, Hre. cbn [truthy].
    assert (Hown' : ownFormat (beforeBlur me)) by (rewrite Hb; exact Hown).
    rewrite (setValue_date now textErrors _ d Hown').
    rewrite Hb. reflexivity.
Qed.

Lemma onSelect_date (me : Field) (meridiem : string) (d : JSDate) :
  meridiem = "AM" \/ meridiem = "PM" ->
  getValue me = DateV d ->
  onSelect me meridiem
  = let newValue :=
      mkJSDate (getFullYear now) (getMonth now) (getDate now)
        (hourIn meridiem (getHours d)) (getMinutes d) (getSeconds d) 0 in
    Normal (setValue (setMeridiemValue (Some meridiem) me) (DateV newValue),
            [SelectEvent (DateV newValue)]).
Proof.
  intros Hm Hv.
  destruct (parsed_shape now textErrors now_valid me _ d
              (getValue_date now textErrors me d Hv)) as (_ & Hvt & _).
  pose proof Hvt as Hb. apply validTime_spec in Hb. destruct Hb as (Hh & Hi & Hs).
  destruct (hourIn_facts (getHours d) meridiem Hh Hm) as (B & _ & _).
  unfold onSelect. rewrite Hv. cbn [truthy].
  change (ExtDate_format d "his") with (dateFormat d "his").
  change (ExtDate_parse (dateFormat d "his" ++ meridiem) "hisA" None)
    with (parse now (dateFormat d "his" ++ meridiem) "hisA" None).
  rewrite parse_scan, (scan_his d meridiem Hvt Hm).
  assert (Hok : fieldsOK (mkFields (Some (hourIn meridiem (getHours d)))
                            (Some (getMinutes d)) (Some (getSeconds d))) = true).
  { apply fieldsOK_spec. cbn [var_h var_i var_s]. rewrite !inBound_Some. lia. }
  destruct (build_shape now None _ now_valid Hok) as (-> & _).
  reflexivity.
Qed.

(** X17.  Selecting the meridiem of the half of the day the value already
    lies in changes nothing of the value: [onSelect] fires 'select' with the
    value the field had. *)
Theorem onSelect_same_meridiem_keeps_value (me : Field) (d : JSDate) :
  getValue me = DateV d ->
  exists me',
    onSelect me (meridiemOf d) = Normal (me', [SelectEvent (DateV d)])
    /\ me' = setValue (setMeridiemValue (Some (meridiemOf d)) me) (DateV d).
Proof.
  intros Hv.
  destruct (parsed_shape now textErrors now_valid me _ d
              (getValue_date now textErrors me d Hv)) as (Hd & Hvt & _).
  apply validTime_spec in Hvt. destruct Hvt as (Hh & _ & _).
  rewrite (onSelect_date me (meridiemOf d) d (meridiemOf_cases d) Hv). cbv zeta.
  assert (E : hourIn (meridiemOf d) (getHours d) = getHours d)
    by (apply hourIn_own; exact Hh).
  rewrite E, <- Hd. eauto.
Qed.

(** X18.  With AM or PM showing and formats that end in the meridiem code,
    the record [onExpand] highlights in the picker is the meridiem that is
    showing, whether the field holds a time, other text or nothing. *)
Theorem pickerRecord_is_showing_meridiem (me : Field) (meridiem : string) :
  forallb meridiemFormat (format me :: fallbackFormats me) = true ->
  meridiemValue me = Some meridiem ->
  meridiem = "AM" \/ meridiem = "PM" ->
  pickerRecord me = if String.eqb meridiem "AM" then 0%nat else 1%nat.
Proof.
  intros Hfmts Hmer Hm. unfold pickerRecord.
  destruct (getValue me) as [| |s|d] eqn:Hv; rewrite ?Hmer; try reflexivity.
  assert (Hcur : meridiemValue me = Some (meridiemOf d)).
  { apply (parsed_meridiem_is_current now textErrors now_valid me (rawValue me) d Hfmts).
    - rewrite Hmer. destruct Hm as [-> | ->]; auto.
    - exact (getValue_date now textErrors me d Hv). }
  rewrite Hmer in Hcur. injection Hcur as ->. reflexivity.
Qed.

Lemma plain_parse_fails (me : Field) (s : string) :
  forallb ExtJSPlain.plainFormat (format me :: fallbackFormats me) = true ->
  meridiemValue me = Some "AM" \/ meridiemValue me = Some "PM" ->
  s <> "" -> ExtJSPlain.noLetters s = false ->
  parseDate me (Str s) = Null.
Proof.
  intros Hfmts Hm Hs Hlet.
  assert (Hall : forall fmt, In fmt (format me :: fallbackFormats me) ->
                   ExtDate_parse (parseInput me s) fmt (useStrict me) = None).
  { intros fmt Hin. rewrite forallb_forall in Hfmts. unfold parseInput.
    destruct Hm as [-> | ->]; simpl toStr;
      apply (ExtJSMoreFacts.parse_plain_fails now s _ fmt (useStrict me)
               (Hfmts fmt Hin)); auto. }
  apply FirstParse_none_iff in Hall.
  now rewrite (parseDate_first me s None Hs Hall).
Qed.

(** X19.  The meridiem must not be typed into the text: with AM or PM
    showing and formats whose literals are not letters (as the defaults), a
    text that holds a letter parses to [null], because the meridiem is
    appended to it once more. *)
Theorem text_with_letter_does_not_parse (me : Field) (s : string) :
  forallb ExtJSPlain.plainFormat (format me :: fallbackFormats me) = true ->
  meridiemValue me = Some "AM" \/ meridiemValue me = Some "PM" ->
  ExtJSPlain.noLetters s = false ->
  parseDate me (Str s) = Null /\ rawToValue me (Str s) = Str s.
Proof.
  intros Hfmts Hm Hlet.
  assert (Hs : s <> "") by (intros ->; discriminate).
  assert (Hp : parseDate me (Str s) = Null) by now apply plain_parse_fails.
  split; [exact Hp|].
  rewrite (rawToValue_not_date me (Str s)) by (now rewrite Hp).
  apply truthy_Str in Hs. now rewrite Hs.
Qed.

(** X20.  [getErrors] called with a [Date] (the value of the field rather
    than its raw text) always reports the "invalid format" error: the date
    is formatted with its meridiem, and the re-parse appends the meridiem
    again. *)
Theorem getErrors_of_date_reports_invalid_format (me : Field) (d : JSDate) :
  ownFormat me ->
  forallb ExtJSPlain.plainFormat (format me :: fallbackFormats me) = true ->
  meridiemValue me = Some "AM" \/ meridiemValue me = Some "PM" ->
  getErrors me (DateV d)
  = Normal (Text_getErrors me (DateV d)
            ++ [ExtString_format (invalidText me)
                  [((displayText me d ++ meridiemOf d) ++ " "
                    ++ toStr (meridiemValue me))%string;
                   toStr (invalidTextFormat me)]])%list.
Proof.
  intros Hown Hfmts Hm.
  assert (Hfv : formattedCandidate me (DateV d)
                = Str (displayText me d ++ meridiemOf d)).
  { unfold formattedCandidate, jsOr. cbn [truthy].
    exact (formatDate_ownFormat now textErrors me d Hown). }
  assert (Hlet : ExtJSPlain.noLetters (displayText me d ++ meridiemOf d) = false).
  { rewrite ExtJSMoreFacts.noLetters_app.
    destruct (meridiemOf_cases d) as [-> | ->]; apply andb_false_r. }
  assert (Hne : displayText me d ++ meridiemOf d <> "")
    by (intros E; rewrite E in Hlet; discriminate).
  rewrite (getErrors_Str me _ _ Hfv Hne).
  now rewrite (plain_parse_fails me _ Hfmts Hm Hne Hlet).
Qed.

End MoreReferenceHost.

(** * The further properties on the sample field *)

Module MoreExamples.

Import Sample MoreSample Examples.

#[local] Existing Instance Sample.host.

(** The formats of the class defaults have no letter among their literals
    and end in the meridiem code, before and after [initComponent] with
    seconds captured. *)
Example default_formats_are_plain :
  forallb ExtJSPlain.plainFormat (format field :: fallbackFormats field) = true
  /\ (let me := initComponent (set_captureSeconds true field) in
      forallb ExtJSPlain.plainFormat (format me :: fallbackFormats me) = true).
Proof. split; reflexivity. Qed.

(** Witness of X1: 15 June 2020, 15:45:30.500, cleared on the sample day
    without seconds. *)
Lemma clearDate_keeps_time_of_day_holds :
  NoGapAt (getHours june) (getMinutes june)
  /\ exists d',
      clearDate field (DateV june) = DateV d'
      /\ getHours d' = 15
      /\ getMinutes d' = 45
      /\ getMilliseconds d' = 500
      /\ getSeconds d' = 0.
Proof.
  split; [exact (sample_no_gap _ _)|].
  exact (clearDate_keeps_time_of_day field june (sample_no_gap _ _)).
Defined.

(** Witness of X2: 10 February 2023 cleared on 31 January 2024. *)
Lemma clearDate_misses_day_on_overflow_holds :
  validDay today = true
  /\ ZoneKeepsDay
  /\ getDate today > daysInMonth 2023 1
  /\ exists d',
      clearDate field (DateV (mkJSDate 2023 1 10 9 0 30 0)) = DateV d'
      /\ datePortion d' = (2024, 0, 31 - 28)
      /\ datePortion d' <> datePortion today.
Proof.
  split; [reflexivity|]. split; [exact sample_keeps_day|]. split; [reflexivity|].
  exact (clearDate_misses_day_on_overflow field (mkJSDate 2023 1 10 9 0 30 0)
           eq_refl sample_keeps_day eq_refl).
Defined.

Lemma newYork_keeps_day :
  @ZoneKeepsDay (hostIn newYork (mkJSDate 2024 2 10 9 0 0 0)).
Proof.
  intros t. cbn [localTime timeZone hostIn newYork].
  destruct ((getFullYear t =? 2024) && (getMonth t =? 2) && (getDate t =? 10)
            && (getHours t =? 2)) eqn:E; [|reflexivity].
  rewrite !andb_true_iff, !Z.eqb_eq in E. destruct E as [[[Ey Em] Ed] _].
  unfold datePortion. cbn. now rewrite Ey, Em, Ed.
Qed.

Lemma newYork_shows_once (t : JSDate) :
  @localTime newYork (@localTime newYork t) = @localTime newYork t.
Proof.
  cbn [localTime newYork].
  destruct ((getFullYear t =? 2024) && (getMonth t =? 2) && (getDate t =? 10)
            && (getHours t =? 2)) eqn:E; [reflexivity|].
  now rewrite E.
Qed.

(** Witness of X22: 2:30 of 5 March 2024, cleared in New York on the 10th,
    the day daylight saving begins. *)
Lemma clearDate_shows_zone_time_holds :
  @clearDate (hostIn newYork (mkJSDate 2024 2 10 9 0 0 0)) field
    (DateV (mkJSDate 2024 2 5 2 30 0 0))
  = DateV (mkJSDate 2024 2 10 3 30 0 0).
Proof.
  exact (@clearDate_shows_zone_time (hostIn newYork (mkJSDate 2024 2 10 9 0 0 0))
           field (mkJSDate 2024 2 5 2 30 0 0)
           eq_refl newYork_keeps_day newYork_shows_once eq_refl eq_refl).
Defined.

(** Witness of X5: both bound errors after the errors of the parent. *)
Lemma getErrors_extends_parent_errors_holds :
  exists own,
    ["The time in this field must be equal to or after 04:00PM";
     "The time in this field must be equal to or before 02:00PM"]
    = (Text_getErrors bounded (Str "3:45") ++ own)%list
    /\ (List.length own <= 2)%nat.
Proof.
  exact (getErrors_extends_parent_errors bounded (Str "3:45") _ eq_refl).
Defined.

Lemma driven_reachable : Reachable driven.
Proof.
  apply Reachable_setMinValue, Reachable_typed, Reachable_setValue, Reachable_init.
Defined.

(** Witness of X6: a field built, given no value, typed into and given a
    minimum. *)
Lemma getErrors_never_raises_holds :
  isBound (minValue driven) = true
  /\ isBound (maxValue driven) = true
  /\ exists errors, getErrors driven Undefined = Normal errors.
Proof. exact (getErrors_never_raises driven Undefined driven_reachable). Defined.

(** Witness of X8: the text "3:75" given as a value. *)
Lemma setValue_unparsed_empties_text_holds :
  truthy (parseDate (typed "3:45") (Str "3:75")) = false
  /\ rawValue (setValue (typed "3:45") (Str "3:75")) = ""
  /\ (truthyStr (meridiemValue (typed "3:45")) = true ->
      meridiemValue (setValue (typed "3:45") (Str "3:75")) = Some "PM").
Proof.
  split; [reflexivity|].
  exact (setValue_unparsed_empties_text (typed "3:45") (Str "3:75") eq_refl).
Defined.

(** Witness of X9: AM selected while the field holds "3:45", and while it
    holds "3:75", which does not parse. *)
Lemma onSelect_fires_iff_text_holds :
  getValue (typed "3:45") = DateV (at_ 15 45 0)
  /\ (exists me' newValue,
        onSelect (typed "3:45") "AM" = Normal (me', [SelectEvent newValue]))
  /\ rawValue (typed "3:75") <> ""
  /\ ((exists me' newValue,
         onSelect (typed "3:75") "AM" = Normal (me', [SelectEvent newValue]))
      \/ (getValue (typed "3:75") = Str (rawValue (typed "3:75"))
          /\ ExtDate_formatOther (Str (rawValue (typed "3:75"))) "his" = Throw
          /\ onSelect (typed "3:75") "AM" = Throw)).
Proof.
  split; [reflexivity|].
  split; [exact (proj1 (proj2 (onSelect_fires_iff_text (typed "3:45") "AM"))
                   (at_ 15 45 0) eq_refl)|].
  split; [discriminate|].
  exact (proj2 (proj2 (onSelect_fires_iff_text (typed "3:75") "AM"))
           ltac:(discriminate)).
Defined.

(** Witness of X10: AM selected while the field holds "3:75". *)
Lemma onSelect_erases_unparsed_text_holds :
  getValue (typed "3:75") = Str "3:75"
  /\ exists me',
      onSelect (typed "3:75") "AM" = Normal (me', [SelectEvent Null])
      /\ rawValue me' = ""
      /\ meridiemValue me' = Some "AM".
Proof.
  split; [reflexivity|].
  exact (onSelect_erases_unparsed_text (typed "3:75") "AM" ""
           ltac:(discriminate) ltac:(discriminate) eq_refl eq_refl eq_refl).
Defined.

(** Witness of X11: the defaults with seconds captured. *)
Lemma initComponent_formats_holds :
  format (initComponent (set_captureSeconds true field)) = "h:i:sA"
  /\ fallbackFormats (initComponent (set_captureSeconds true field))
     = ["h:iA"; "hiA"; "g:iA"; "giA"; "hA"; "gA";
        "h:i:sA"; "hi:sA"; "h:isA"; "gisA"; "hisA"; "g:i:sA"; "gi:sA"; "g:isA"]
  /\ maxLength (initComponent (set_captureSeconds true field)) = Some 8.
Proof. exact (initComponent_formats (set_captureSeconds true field) eq_refl). Defined.



(** Witness of X14: the class defaults hold no meridiem. *)
Lemma no_meridiem_no_parse_holds :
  meridiemValue defaults = None
  /\ parseDate defaults (Str "3:45") = Null
  /\ rawToValue defaults (Str "3:45") = Str "3:45".
Proof.
  split; [reflexivity|].
  exact (no_meridiem_no_parse now (fun _ _ => []) defaults "3:45"
           eq_refl eq_refl ltac:(discriminate)).
Defined.

(** Witness of X15: a minimum of "9:00" in the configuration. *)
Lemma initComponent_drops_string_bounds_holds :
  (minValue (set_minValue (Str "9:00") defaults) = Str "9:00" ->
   minValue (initComponent (set_minValue (Str "9:00") defaults)) = Null)
  /\ (maxValue (set_minValue (Str "9:00") defaults) = Str "9:00" ->
      maxValue (initComponent (set_minValue (Str "9:00") defaults)) = Null).
Proof.
  exact (initComponent_drops_string_bounds now (fun _ _ => [])
           (set_minValue (Str "9:00") defaults) "9:00"
           eq_refl eq_refl ltac:(discriminate)).
Defined.

(** Witness of X16: "345" typed with PM showing. *)
Lemma beforeBlur_normalises_text_holds :
  parseDate (typed "345") (Str (rawValue (typed "345"))) = DateV (at_ 15 45 0)
  /\ rawValue (beforeBlur (typed "345")) = "03:45"
  /\ meridiemValue (beforeBlur (typed "345")) = Some "PM"
  /\ getValue (beforeBlur (typed "345")) = DateV (at_ 15 45 0)
  /\ beforeBlur (beforeBlur (typed "345")) = beforeBlur (typed "345").
Proof.
  split; [reflexivity|].
  exact (beforeBlur_normalises_text now (fun _ _ => []) sample_now_valid
           (typed "345") (at_ 15 45 0)
           (or_introl (conj eq_refl eq_refl)) eq_refl (or_intror eq_refl) eq_refl).
Defined.

(** Witness of X17: PM selected on 3:45 PM. *)
Lemma onSelect_same_meridiem_keeps_value_holds :
  getValue (typed "3:45") = DateV (at_ 15 45 0)
  /\ exists me',
      onSelect (typed "3:45") "PM" = Normal (me', [SelectEvent (DateV (at_ 15 45 0))])
      /\ me' = setValue (setMeridiemValue (Some "PM") (typed "3:45"))
                 (DateV (at_ 15 45 0)).
Proof.
  split; [reflexivity|].
  exact (onSelect_same_meridiem_keeps_value now (fun _ _ => []) sample_now_valid
           (typed "3:45") (at_ 15 45 0) eq_refl).
Defined.

(** Witness of X18: PM showing. *)
Lemma pickerRecord_is_showing_meridiem_holds :
  pickerRecord (typed "3:45") = 1%nat /\ pickerRecord field = 1%nat.
Proof.
  split.
  - exact (pickerRecord_is_showing_meridiem now (fun _ _ => []) sample_now_valid
             (typed "3:45") "PM" eq_refl eq_refl (or_intror eq_refl)).
  - reflexivity.
Defined.

(** Witness of X19: "3:45PM" typed with PM showing. *)
Lemma text_with_letter_does_not_parse_holds :
  ExtJSPlain.noLetters "3:45PM" = false
  /\ parseDate field (Str "3:45PM") = Null
  /\ rawToValue field (Str "3:45PM") = Str "3:45PM".
Proof.
  split; [reflexivity|].
  exact (text_with_letter_does_not_parse now (fun _ _ => []) field "3:45PM"
           eq_refl (or_intror eq_refl) eq_refl).
Defined.

(** Witness of X20: the value 3:45 PM given to [getErrors] as a [Date]. *)
Lemma getErrors_of_date_reports_invalid_format_holds :
  getErrors field (DateV (at_ 15 45 0))
  = Normal ["03:45PM PM is not a valid time - it must be in the format undefined"].
Proof.
  exact (getErrors_of_date_reports_invalid_format now (fun _ _ => []) field
           (at_ 15 45 0) (or_introl (conj eq_refl eq_refl)) eq_refl
           (or_intror eq_refl)).
Defined.


End MoreExamples.
